(** * week-tech-go-server: the room-scoped subscriber registry and its handlers

    A shallow embedding of [internal/api] (the [apiHandler] with its
    [subscribers] map, [handleSubscribeToRoom], [notifyClients],
    [handleCreateRoomMessage] and [handleRemoveReactionFromMessage]) together
    with the properties of the fan-out engine that the specification states.

    Conventions.
    - A [*websocket.Conn] is a pointer; it is modelled by its identity, a
      [positive].  A [context.CancelFunc] is the closure returned by
      [context.WithCancel]; it is modelled by the identifier of the context
      it cancels.
    - [h.subscribers] is a [gmap] from [roomId.String()] to a [gmap] from
      connections to cancel functions.
    - The collaborators that are not part of the package (the [pg.Queries]
      store, [uuid.Parse], the websocket upgrader, [encoding/json] on request
      and response bodies, the [http.ResponseWriter]) are taken as a record
      of answers, [Deps].
    - Every handler produces the ordered list of observable [event]s it
      performs; an early [return] ends the list. *)

From stdpp Require Import base gmap sets list strings.
From Stdlib Require Import ZArith.

#[local] Set Warnings "-clear-no-such-hyp".

Abbreviation Conn := positive.
Abbreviation CtxId := positive.
Abbreviation CancelFunc := positive.

(** ** Values that cross the package boundary *)

(** [uuid.UUID], observed only through [String()]. *)
Record UUID := mkUUID { UUID_String : string }.

(** [error] values: the handlers only ever ask [errors.Is(err, pgx.ErrNoRows)]. *)
Inductive error :=
  | ErrNoRows
  | ErrOther (msg : string).

Definition errors_Is_ErrNoRows (err : error) : bool :=
  match err with
  | ErrNoRows => true
  | ErrOther _ => false
  end.

(** A Go [(T, error)] pair with the usual discipline: the value is meaningful
    exactly when the error is [nil]. *)
Inductive result (A : Type) :=
  | Ok (a : A)
  | Err (err : error).
Arguments Ok {A} a.
Arguments Err {A} err.

(** [pg.Message] is declared in [internal/store/pg], outside the sources at
    hand: these are the fields that [mappers.MapMessageToRoomMessage] and the
    handlers read, at the types they are used with. *)
Record pg_Message := {
  pg_ID : UUID;
  pg_RoomID : UUID;
  pg_Message_text : string;
  pg_ReactionCount : Z;          (* int64 *)
  pg_Answered : bool;
}.

Definition StatusOK : Z := 200.
Definition StatusCreated : Z := 201.
Definition StatusNoContent : Z := 204.
Definition StatusBadRequest : Z := 400.
Definition StatusNotFound : Z := 404.
Definition StatusInternalServerError : Z := 500.

(** ** JSON values and struct tags *)

#[warnings="-register-all"]
Inductive json :=
  | JString (s : string)
  | JNumber (n : Z)
  | JObject (fields : list (string * json)).

(** A struct field's tag: [`json:"k"`] or [`json:"-"`]. *)
Inductive json_tag :=
  | TagName (k : string)
  | TagSkip.

(** [encoding/json] on a struct: the fields in declaration order, each under
    its tag name, the fields tagged ["-"] left out. *)
Definition marshal_fields (fs : list (json_tag * json)) : json :=
  JObject (omap (λ f, match f.1 with
                      | TagName k => Some (k, f.2)
                      | TagSkip => None
                      end) fs).

Definition MessageKindMessageCreated : string := "message_created".

Record MessageMessageCreated := {
  mc_ID : string;          (* `json:"id"` *)
  mc_Message : string;     (* `json:"message"` *)
}.

(** The dynamic values stored in [Message.Value]: the package only ever
    stores a [MessageMessageCreated]. *)
Inductive any :=
  | AnyMessageMessageCreated (v : MessageMessageCreated).

Record Message := {
  Kind : string;           (* `json:"kind"` *)
  Value : any;             (* `json:"value"` *)
  RoomID : string;         (* `json:"-"` *)
}.

Definition marshal_MessageMessageCreated (v : MessageMessageCreated) : json :=
  marshal_fields [(TagName "id", JString (mc_ID v));
                  (TagName "message", JString (mc_Message v))].

Definition marshal_any (v : any) : json :=
  match v with
  | AnyMessageMessageCreated v => marshal_MessageMessageCreated v
  end.

Definition marshal_Message (msg : Message) : json :=
  marshal_fields [(TagName "kind", JString (Kind msg));
                  (TagName "value", marshal_any (Value msg));
                  (TagSkip, JString (RoomID msg))].

(** The keys that occur anywhere in a JSON value, outermost object first. *)
Fixpoint json_keys (j : json) : list string :=
  match j with
  | JString _ | JNumber _ => []
  | JObject fs =>
      (fix go (fs : list (string * json)) : list string :=
         match fs with
         | [] => []
         | f :: fs => f.1 :: json_keys f.2 ++ go fs
         end) fs
  end.

(** ** Observable events *)

Inductive event :=
  (* calls into the store *)
  | QGetRoom (id : UUID)
  | QInsertMessage (room : UUID) (text : string)
  | QGetMessage (id : UUID)
  | QRemoveReactionFromMessage (id : UUID)
  (* the response writer *)
  | HttpError (body : string) (code : Z)
  | HeaderSet (k v : string)
  | WriteHeader (code : Z)
  | ResponseWrite (data : string) (ok : bool)
  | SlogWarn (msg : string)
  | SlogError (msg : string)
  | SlogInfo (msg : string)
  (* the websocket library *)
  | UpgraderUpgrade (ok : bool)
  | ConnWriteJSON (c : Conn) (v : json) (ok : bool)
  | ConnClose (c : Conn)
  (* contexts *)
  | Cancel (f : CancelFunc)
  (* h.subscribers, under h.mu *)
  | SubscribersInsert (room : string) (c : Conn)
  | SubscribersDelete (room : string) (c : Conn)
  (* goroutines *)
  | GoNotifyClients (msg : Message).

(** ** Requests and collaborators *)

Record Request := {
  URLParam : string → string;    (* chi.URLParam(r, _) *)
  Body : string;                 (* r.Body *)
  Context : CtxId;               (* r.Context() *)
  RemoteAddr : string;
}.

Record Deps := {
  uuid_Parse : string → result UUID;
  q_GetRoom : UUID → result unit;                     (* the row is discarded *)
  q_InsertMessage : UUID → string → result UUID;
  q_GetMessage : UUID → result pg_Message;
  q_RemoveReactionFromMessage : UUID → result Z;
  upgrader_Upgrade : Request → result Conn;
  json_Decode_message : string → result string;       (* Decode(&body); body.Message *)
  json_Marshal : json → result string;
  w_Write : string → result unit;
}.

(** ** The handler monad: a trace of events and an early [return] *)

Definition Handler (A : Type) : Type := (list event * option A)%type.

#[export] Instance Handler_ret : MRet Handler := λ A x, ([], Some x).

#[export] Instance Handler_bind : MBind Handler := λ A B f m,
  match m with
  | (tr, Some x) => let '(tr', y) := f x in (tr ++ tr', y)
  | (tr, None) => (tr, None)
  end.

Definition emit (e : event) : Handler unit := ([e], Some tt).

(** Go's [return] out of the handler. *)
Definition return_ {A : Type} : Handler A := ([], None).

(** [v, err := call; if err != nil { onErr(err); return }]. *)
Definition or_return {A : Type} (r : result A) (onErr : error → Handler unit) : Handler A :=
  match r with
  | Ok a => mret a
  | Err err => onErr err;; return_
  end.

(** [if cond { body; return }]. *)
Definition when_return (cond : bool) (body : Handler unit) : Handler unit :=
  if cond then body;; return_ else mret tt.

Definition trace {A : Type} (m : Handler A) : list event := m.1.

(** ** internal/utils and internal/helpers *)

Definition ParseUUIDParam (d : Deps) (r : Request) (param : string) : result UUID :=
  let rawRoomID := URLParam r param in
  uuid_Parse d rawRoomID.

Definition LogErrorAndRespond (logMessage responseMessage : string) (code : Z) : Handler unit :=
  emit (SlogWarn logMessage);;
  emit (HttpError responseMessage code).

(** The error branch shared by every store lookup. *)
Definition respond_lookup_error (notFound : string) (err : error) : Handler unit :=
  if errors_Is_ErrNoRows err
  then emit (HttpError notFound StatusNotFound)
  else emit (HttpError "something went wrong" StatusInternalServerError).

(** [json.Marshal], set the headers, [w.Write]: the tail of the JSON handlers. *)
Definition write_json_response (d : Deps) (code : option Z) (v : json) : Handler unit :=
  data ← or_return (json_Marshal d v)
           (λ _, LogErrorAndRespond "failed to marshal response" "something went wrong"
                   StatusInternalServerError);
  emit (HeaderSet "Content-Type" "application/json");;
  match code with Some c => emit (WriteHeader c) | None => mret tt end;;
  match w_Write d data with
  | Ok _ => emit (ResponseWrite data true)
  | Err _ =>
      emit (ResponseWrite data false);;
      LogErrorAndRespond "failed to write response" "something went wrong"
        StatusInternalServerError;;
      return_
  end.

(** ** WS controller, up to the wait on [ctx.Done()] *)

(** Lines 112-133 of [handleSubscribeToRoom]: parse, look the room up,
    upgrade.  The value returned is what the rest of the handler uses. *)
Definition handleSubscribeToRoom_accept (d : Deps) (r : Request) : Handler (UUID * Conn) :=
  roomId ← or_return (ParseUUIDParam d r "room_id")
             (λ _, emit (HttpError "invalid room id" StatusBadRequest));
  emit (QGetRoom roomId);;
  _ ← or_return (q_GetRoom d roomId) (respond_lookup_error "room not found");
  c ← match upgrader_Upgrade d r with
      | Ok c => emit (UpgraderUpgrade true);; mret c
      | Err _ =>
          emit (UpgraderUpgrade false);;
          LogErrorAndRespond "failed to upgrade connection" "failed to upgrade connection"
            StatusBadRequest;;
          return_
      end;
  mret (roomId, c).

(** ** HTTP controllers *)

Definition message_created (roomId messageID : UUID) (text : string) : Message :=
  {| Kind := MessageKindMessageCreated;
     RoomID := UUID_String roomId;
     Value := AnyMessageMessageCreated
                {| mc_ID := UUID_String messageID; mc_Message := text |} |}.

Definition handleCreateRoomMessage (d : Deps) (r : Request) : Handler unit :=
  roomId ← or_return (ParseUUIDParam d r "room_id")
             (λ _, emit (HttpError "invalid room id" StatusBadRequest));
  emit (QGetRoom roomId);;
  _ ← or_return (q_GetRoom d roomId) (respond_lookup_error "room not found");
  body_Message ← or_return (json_Decode_message d (Body r))
                   (λ _, emit (HttpError "invalid json" StatusBadRequest));
  emit (QInsertMessage roomId body_Message);;
  messageID ← or_return (q_InsertMessage d roomId body_Message)
                (λ _, LogErrorAndRespond "failed to insert message" "something went wrong"
                        StatusInternalServerError);
  write_json_response d (Some StatusCreated)
    (marshal_fields [(TagName "id", JString (UUID_String messageID))]);;
  emit (GoNotifyClients (message_created roomId messageID body_Message)).

Definition handleRemoveReactionFromMessage (d : Deps) (r : Request) : Handler unit :=
  roomID ← or_return (ParseUUIDParam d r "room_id")
             (λ _, emit (HttpError "invalid room id" StatusBadRequest));
  messageId ← or_return (ParseUUIDParam d r "message_id")
                (λ _, emit (HttpError "invalid message id" StatusBadRequest));
  emit (QGetMessage messageId);;
  message ← or_return (q_GetMessage d messageId) (respond_lookup_error "message not found");
  when_return (negb (String.eqb (UUID_String (pg_RoomID message)) (UUID_String roomID)))
    (emit (HttpError "message not found" StatusNotFound));;
  when_return (pg_ReactionCount message =? 0)%Z
    (emit (WriteHeader StatusNoContent));;
  emit (QRemoveReactionFromMessage messageId);;
  count ← or_return (q_RemoveReactionFromMessage d messageId)
            (λ _, emit (HttpError "something went wrong" StatusInternalServerError));
  write_json_response d (Some StatusOK) (marshal_fields [(TagName "count", JNumber count)]).

(** ** The registry and the subscription sessions *)

(** A goroutine that runs [handleSubscribeToRoom] and got as far as the
    registration, identified by its connection [c]. *)
Record Session := {
  s_room : UUID;                 (* roomId *)
  s_request_ctx : CtxId;         (* r.Context() *)
  s_ctx : CtxId;                 (* ctx, cancel := context.WithCancel(r.Context()) *)
  s_closed : bool;               (* the handler has returned *)
}.

Record World := {
  subscribers : gmap string (gmap Conn CancelFunc);   (* h.subscribers *)
  cancelled : gset CtxId;        (* contexts cancelled directly *)
  contexts : gset CtxId;         (* contexts handed out so far *)
  broken : gset Conn;            (* connections whose transport fails on write *)
  sessions : gmap Conn Session;
}.

(** [NewHandler]: an empty registry. *)
Definition NewHandler : World :=
  {| subscribers := ∅; cancelled := ∅; contexts := ∅; broken := ∅; sessions := ∅ |}.

Definition set_subscribers (f : gmap string (gmap Conn CancelFunc) → gmap string (gmap Conn CancelFunc))
    (w : World) : World :=
  {| subscribers := f (subscribers w); cancelled := cancelled w; contexts := contexts w;
     broken := broken w; sessions := sessions w |}.

(** [cancel()]: closes the [Done] channel of its context; calling it again
    changes nothing. *)
Definition call_cancel (cancel : CancelFunc) (w : World) : World :=
  {| subscribers := subscribers w; cancelled := {[cancel]} ∪ cancelled w;
     contexts := contexts w; broken := broken w; sessions := sessions w |}.

(** Lines 140-143, under [h.mu]. *)
Definition subscribe (room : string) (c : Conn) (cancel : CancelFunc)
    (subs : gmap string (gmap Conn CancelFunc)) : gmap string (gmap Conn CancelFunc) :=
  let subs := match subs !! room with
              | Some _ => subs
              | None => <[room := ∅]> subs
              end in
  <[room := <[c := cancel]> (subs !!! room)]> subs.

(** Line 152, under [h.mu]: [delete(h.subscribers[room], c)].  Indexing a
    missing room yields a nil map, on which [delete] does nothing. *)
Definition unsubscribe (room : string) (c : Conn)
    (subs : gmap string (gmap Conn CancelFunc)) : gmap string (gmap Conn CancelFunc) :=
  match subs !! room with
  | Some conns => <[room := delete c conns]> subs
  | None => subs
  end.

(** [conn.WriteJSON(msg)]: fails exactly on a broken transport. *)
Definition WriteJSON_ok (w : World) (conn : Conn) : bool := bool_decide (conn ∉ broken w).

(** The [for conn, cancel := range subscribers] loop of [notifyClients],
    over the order in which the runtime enumerates the map. *)
Fixpoint range_subscribers (msg : Message) (order : list (Conn * CancelFunc)) (w : World)
    : World * list event :=
  match order with
  | [] => (w, [])
  | sub :: rest =>
      if WriteJSON_ok w sub.1
      then let r := range_subscribers msg rest w in
           (r.1, ConnWriteJSON sub.1 (marshal_Message msg) true :: r.2)
      else let r := range_subscribers msg rest (call_cancel sub.2 w) in
           (r.1, ConnWriteJSON sub.1 (marshal_Message msg) false
                   :: SlogError "failed to send message to client"
                   :: Cancel sub.2 :: r.2)
  end.

(** [notifyClients], run under [h.mu] for the whole loop.  [order] is the
    enumeration of [h.subscribers[msg.RoomID]] that [range] happens to use. *)
Definition notifyClients (w : World) (msg : Message) (order : list (Conn * CancelFunc))
    : World * list event :=
  match subscribers w !! RoomID msg with
  | None => (w, [])
  | Some subs =>
      if decide (size subs = 0) then (w, [])
      else range_subscribers msg order w
  end.

(** [order] is a possible enumeration for this call. *)
Definition range_order (w : World) (msg : Message) (order : list (Conn * CancelFunc)) : Prop :=
  order ≡ₚ map_to_list (default ∅ (subscribers w !! RoomID msg)).

#[export] Instance range_order_dec w msg order : Decision (range_order w msg order).
Proof. unfold range_order. apply _. Defined.

(** [<-ctx.Done()] returns: the derived context was cancelled, or its parent was. *)
Definition ctx_done (w : World) (s : Session) : Prop :=
  s_ctx s ∈ cancelled w ∨ s_request_ctx s ∈ cancelled w.

#[export] Instance ctx_done_dec w s : Decision (ctx_done w s).
Proof. unfold ctx_done. apply _. Defined.

(** The whole of [handleSubscribeToRoom] up to the wait (lines 112-148):
    the accept phase, then the registration under [h.mu]. *)
Definition handleSubscribeToRoom_register (d : Deps) (r : Request) (ctx : CtxId) (w : World)
    : World * list event * option Conn :=
  let a := handleSubscribeToRoom_accept d r in
  match a.2 with
  | None => (w, a.1, None)
  | Some (roomId, c) =>
      let cancel := ctx in
      ({| subscribers := subscribe (UUID_String roomId) c cancel (subscribers w);
          cancelled := cancelled w;
          contexts := {[ctx]} ∪ ({[Context r]} ∪ contexts w);
          broken := broken w;
          sessions := <[c := {| s_room := roomId; s_request_ctx := Context r;
                                s_ctx := ctx; s_closed := false |}]> (sessions w) |},
       a.1 ++ [SubscribersInsert (UUID_String roomId) c;
               SlogInfo "new subscriber connected"],
       Some c)
  end.

(** Lines 150-154 and the deferred [c.Close()]: what the handler does once
    the wait returns. *)
Definition handleSubscribeToRoom_cleanup (c : Conn) (s : Session) (w : World)
    : World * list event :=
  ({| subscribers := unsubscribe (UUID_String (s_room s)) c (subscribers w);
      cancelled := cancelled w; contexts := contexts w; broken := broken w;
      sessions := <[c := {| s_room := s_room s; s_request_ctx := s_request_ctx s;
                            s_ctx := s_ctx s; s_closed := true |}]> (sessions w) |},
   [SubscribersDelete (UUID_String (s_room s)) c; ConnClose c]).

(** ** The interleavings of the process

    Every access to [h.subscribers] happens under [h.mu], so the goroutines
    interleave at the granularity of the critical sections.  A [label] is
    one scheduling or environment choice. *)
Inductive label :=
  | LSubscribe (d : Deps) (r : Request) (ctx : CtxId)
      (* a GET /subscribe/{room_id} is served up to its wait *)
  | LRequestDone (c : Conn)
      (* the request context of session [c] is cancelled *)
  | LBreak (c : Conn)
      (* the transport of [c] stops accepting writes *)
  | LNotify (msg : Message) (order : list (Conn * CancelFunc))
      (* a [go h.notifyClients(msg)] goroutine runs *)
  | LResume (c : Conn).
      (* the wait of session [c] returns and its cleanup runs *)

(** [Upgrade] returns a connection that no earlier session holds;
    [WithCancel] returns a context that has not been handed out. *)
Definition fresh_conn (w : World) (c : option Conn) : bool :=
  match c with
  | Some c => bool_decide (sessions w !! c = None)
  | None => true
  end.

Definition fresh_ctx (w : World) (r : Request) (ctx : CtxId) : bool :=
  bool_decide (ctx ∉ contexts w) && bool_decide (ctx ∉ cancelled w)
  && bool_decide (ctx ≠ Context r).

Definition step (w : World) (l : label) : option (World * list event) :=
  match l with
  | LSubscribe d r ctx =>
      let res := handleSubscribeToRoom_register d r ctx w in
      if fresh_conn w res.2 && fresh_ctx w r ctx then Some res.1 else None
  | LRequestDone c =>
      match sessions w !! c with
      | Some s => Some (call_cancel (s_request_ctx s) w, [])
      | None => None
      end
  | LBreak c =>
      Some ({| subscribers := subscribers w; cancelled := cancelled w;
               contexts := contexts w; broken := {[c]} ∪ broken w;
               sessions := sessions w |}, [])
  | LNotify msg order =>
      if bool_decide (range_order w msg order)
      then Some (notifyClients w msg order)
      else None
  | LResume c =>
      match sessions w !! c with
      | Some s =>
          if negb (s_closed s) && bool_decide (ctx_done w s)
          then Some (handleSubscribeToRoom_cleanup c s w)
          else None
      | None => None
      end
  end.

Fixpoint run (w : World) (ls : list label) : option (World * list event) :=
  match ls with
  | [] => Some (w, [])
  | l :: ls =>
      match step w l with
      | Some r =>
          match run r.1 ls with
          | Some r' => Some (r'.1, r.2 ++ r'.2)
          | None => None
          end
      | None => None
      end
  end.

(** ** Reading traces *)

Fixpoint count_events (p : event → bool) (tr : list event) : nat :=
  match tr with
  | [] => 0
  | e :: tr => (if p e then 1 else 0) + count_events p tr
  end.

(** Every [q]-event of the trace has a [p]-event strictly before it. *)
Definition preceded_by (p q : event → bool) (tr : list event) : Prop :=
  ∀ j e, tr !! j = Some e → q e = true →
    ∃ i e', i < j ∧ tr !! i = Some e' ∧ p e' = true.

Definition is_GetRoom (e : event) : bool :=
  match e with QGetRoom _ => true | _ => false end.
Definition is_Upgrade (e : event) : bool :=
  match e with UpgraderUpgrade _ => true | _ => false end.
Definition is_Upgrade_ok (e : event) : bool :=
  match e with UpgraderUpgrade true => true | _ => false end.
Definition is_SubscribersInsert (e : event) : bool :=
  match e with SubscribersInsert _ _ => true | _ => false end.
Definition is_InsertMessage (e : event) : bool :=
  match e with QInsertMessage _ _ => true | _ => false end.
Definition is_ResponseWrite_ok (e : event) : bool :=
  match e with ResponseWrite _ true => true | _ => false end.
Definition is_GoNotifyClients (e : event) : bool :=
  match e with GoNotifyClients _ => true | _ => false end.
Definition is_RemoveReaction (e : event) : bool :=
  match e with QRemoveReactionFromMessage _ => true | _ => false end.

(** The [http.Error] responses and the status lines of a trace. *)
Definition http_errors (tr : list event) : list (string * Z) :=
  omap (λ e, match e with HttpError body code => Some (body, code) | _ => None end) tr.

Definition status_codes (tr : list event) : list Z :=
  omap (λ e, match e with
             | HttpError _ code | WriteHeader code => Some code
             | _ => None
             end) tr.

(** The messages handed to [go h.notifyClients]. *)
Definition published (tr : list event) : list Message :=
  omap (λ e, match e with GoNotifyClients msg => Some msg | _ => None end) tr.

(** What a broadcast did to connection [c]: the values written to it, each
    with the outcome of the write. *)
Definition sent_to (c : Conn) (tr : list event) : list (json * bool) :=
  omap (λ e, match e with
             | ConnWriteJSON c' v ok => if decide (c' = c) then Some (v, ok) else None
             | _ => None
             end) tr.

(** The connections a broadcast wrote to, in order, and the cancel functions
    it invoked. *)
Definition write_attempts (tr : list event) : list Conn :=
  omap (λ e, match e with ConnWriteJSON c _ _ => Some c | _ => None end) tr.

Definition delivered (tr : list event) : list Conn :=
  omap (λ e, match e with ConnWriteJSON c _ true => Some c | _ => None end) tr.

Definition cancels (tr : list event) : list CancelFunc :=
  omap (λ e, match e with Cancel f => Some f | _ => None end) tr.

Definition unsubscribes (room : string) (c : Conn) (tr : list event) : nat :=
  count_events (λ e, match e with
                     | SubscribersDelete room' c' =>
                         bool_decide (room' = room) && bool_decide (c' = c)
                     | _ => false
                     end) tr.

(** ** Proof tools for handler traces *)

(** Settle [preceded_by] on a trace whose spine is known. *)
Ltac preceded_by_cases :=
  let j := fresh "j" in
  let e := fresh "e" in
  let Hj := fresh "Hj" in
  let He := fresh "He" in
  intros j e Hj He;
  repeat (destruct j as [|j]; simpl in Hj;
          [ injection Hj as <-; first [ discriminate He | idtac ] | ]);
  try discriminate Hj.

(** ** Concrete collaborators and requests used to exercise the statements *)

(** Every collaborator succeeds: the room exists, the upgrade yields
    connection [1], the insert yields message ["m1"]. *)
Definition deps_ok : Deps := {|
  uuid_Parse := λ s, Ok (mkUUID s);
  q_GetRoom := λ _, Ok tt;
  q_InsertMessage := λ _ _, Ok (mkUUID "m1");
  q_GetMessage := λ id,
    Ok {| pg_ID := id; pg_RoomID := mkUUID "R"; pg_Message_text := "hi";
          pg_ReactionCount := 0; pg_Answered := false |};
  q_RemoveReactionFromMessage := λ _, Ok 0%Z;
  upgrader_Upgrade := λ _, Ok 1%positive;
  json_Decode_message := λ s, Ok s;
  json_Marshal := λ _, Ok "data";
  w_Write := λ _, Ok tt |}.

Definition with_GetRoom (f : UUID → result unit) (d : Deps) : Deps := {|
  uuid_Parse := uuid_Parse d; q_GetRoom := f; q_InsertMessage := q_InsertMessage d;
  q_GetMessage := q_GetMessage d;
  q_RemoveReactionFromMessage := q_RemoveReactionFromMessage d;
  upgrader_Upgrade := upgrader_Upgrade d; json_Decode_message := json_Decode_message d;
  json_Marshal := json_Marshal d; w_Write := w_Write d |}.

Definition with_Upgrade (f : Request → result Conn) (d : Deps) : Deps := {|
  uuid_Parse := uuid_Parse d; q_GetRoom := q_GetRoom d; q_InsertMessage := q_InsertMessage d;
  q_GetMessage := q_GetMessage d;
  q_RemoveReactionFromMessage := q_RemoveReactionFromMessage d;
  upgrader_Upgrade := f; json_Decode_message := json_Decode_message d;
  json_Marshal := json_Marshal d; w_Write := w_Write d |}.

Definition with_Write (f : string → result unit) (d : Deps) : Deps := {|
  uuid_Parse := uuid_Parse d; q_GetRoom := q_GetRoom d; q_InsertMessage := q_InsertMessage d;
  q_GetMessage := q_GetMessage d;
  q_RemoveReactionFromMessage := q_RemoveReactionFromMessage d;
  upgrader_Upgrade := upgrader_Upgrade d; json_Decode_message := json_Decode_message d;
  json_Marshal := json_Marshal d; w_Write := f |}.

Definition with_GetMessage (f : UUID → result pg_Message) (d : Deps) : Deps := {|
  uuid_Parse := uuid_Parse d; q_GetRoom := q_GetRoom d; q_InsertMessage := q_InsertMessage d;
  q_GetMessage := f;
  q_RemoveReactionFromMessage := q_RemoveReactionFromMessage d;
  upgrader_Upgrade := upgrader_Upgrade d; json_Decode_message := json_Decode_message d;
  json_Marshal := json_Marshal d; w_Write := w_Write d |}.

(** A request for room ["R"] with body text ["hi"] under request context [10]. *)
Definition request_R : Request :=
  {| URLParam := λ _, "R"; Body := "hi"; Context := 10%positive; RemoteAddr := "client" |}.

(** A stored message of room [room] with the given reaction count. *)
Definition stored_message (room : string) (count : Z) (id : UUID) : result pg_Message :=
  Ok {| pg_ID := id; pg_RoomID := mkUUID room; pg_Message_text := "hi";
        pg_ReactionCount := count; pg_Answered := false |}.

(** ** Statements that are tested against the code *)

(** The remove-reaction guard, read as "a zero count answers 204 and the
    decrement runs only on a positive count". *)
Definition decrement_only_when_positive (d : Deps) (r : Request) : Prop :=
  ∀ roomID messageId message,
    ParseUUIDParam d r "room_id" = Ok roomID →
    ParseUUIDParam d r "message_id" = Ok messageId →
    q_GetMessage d messageId = Ok message →
    let tr := trace (handleRemoveReactionFromMessage d r) in
    (pg_ReactionCount message = 0%Z →
       status_codes tr = [StatusNoContent] ∧ count_events is_RemoveReaction tr = 0) ∧
    (count_events is_RemoveReaction tr ≠ 0 → (0 < pg_ReactionCount message)%Z).

Definition is_Upgrade_failed (e : event) : bool :=
  match e with UpgraderUpgrade false => true | _ => false end.

(** The subscription handshake read as "upgrade first, then ask the store":
    every store lookup of the handler has an upgrade before it. *)
Definition upgrade_before_lookup (d : Deps) (r : Request) (ctx : CtxId) (w : World) : Prop :=
  preceded_by is_Upgrade is_GetRoom (handleSubscribeToRoom_register d r ctx w).1.2.

(** The publish read as "whenever the insert succeeded": the response path
    plays no part. *)
Definition published_once_after_insert (d : Deps) (r : Request) : Prop :=
  ∀ roomId text messageID,
    ParseUUIDParam d r "room_id" = Ok roomId →
    q_GetRoom d roomId = Ok tt →
    json_Decode_message d (Body r) = Ok text →
    q_InsertMessage d roomId text = Ok messageID →
    published (trace (handleCreateRoomMessage d r))
    = [message_created roomId messageID text].

(** ** The registry operations of one session, and the set they maintain *)

Inductive registry_op :=
  | OpSubscribe (cancel : CancelFunc)      (* lines 139-145 *)
  | OpUnsubscribe.                         (* lines 150-154 *)

Definition apply_op (room : string) (c : Conn)
    (subs : gmap string (gmap Conn CancelFunc)) (o : registry_op)
    : gmap string (gmap Conn CancelFunc) :=
  match o with
  | OpSubscribe cancel => subscribe room c cancel subs
  | OpUnsubscribe => unsubscribe room c subs
  end.

(** The membership recorded by [h.subscribers]: the (room, connection) pairs
    that have an entry. *)
Definition members (subs : gmap string (gmap Conn CancelFunc)) : gset (string * Conn) :=
  list_to_set (rm ← map_to_list subs; (λ c, (rm.1, c)) <$> elements (dom rm.2)).

(** The same operations on a plain set of pairs: subscribing inserts the
    pair, unsubscribing removes it. *)
Definition set_apply_op (room : string) (c : Conn)
    (S : gset (string * Conn)) (o : registry_op) : gset (string * Conn) :=
  match o with
  | OpSubscribe _ => {[(room, c)]} ∪ S
  | OpUnsubscribe => S ∖ {[(room, c)]}
  end.

(** A second subscription request for room ["R"], under request context [20]. *)
Definition request_R2 : Request :=
  {| URLParam := λ _, "R"; Body := ""; Context := 20%positive; RemoteAddr := "client2" |}.

(** Room ["R"] with two registered sessions: connection [1] (cancel function
    [11]) and connection [2] (cancel function [12]); the transport of
    connection [1] is broken. *)
Definition world_R12 : World :=
  {| subscribers := {["R" := {[1%positive := 11%positive; 2%positive := 12%positive]}]};
     cancelled := ∅;
     contexts := {[10%positive; 11%positive; 20%positive; 12%positive]};
     broken := {[1%positive]};
     sessions :=
       {[1%positive := {| s_room := mkUUID "R"; s_request_ctx := 10%positive;
                          s_ctx := 11%positive; s_closed := false |};
         2%positive := {| s_room := mkUUID "R"; s_request_ctx := 20%positive;
                          s_ctx := 12%positive; s_closed := false |}]} |}.

(** The schedule that leads from [NewHandler] to [world_R12]. *)
Definition schedule_R12 : list label :=
  [LSubscribe deps_ok request_R 11%positive;
   LSubscribe (with_Upgrade (λ _, Ok 2%positive) deps_ok) request_R2 12%positive;
   LBreak 1%positive].

Definition message_m1 : Message := message_created (mkUUID "R") (mkUUID "m1") "hi".

(** ** Well-formed registries *)

(** Every entry of [h.subscribers] belongs to a session that has not
    returned yet, sits under the room of that session, and holds the cancel
    function of that session's context. *)
Definition registry_owned (w : World) : Prop :=
  ∀ room conns c f,
    subscribers w !! room = Some conns → conns !! c = Some f →
    ∃ s, sessions w !! c = Some s ∧ s_closed s = false ∧
         UUID_String (s_room s) = room ∧ s_ctx s = f.

(** Connection [c] has no entry in any room. *)
Definition absent_everywhere (c : Conn) (w : World) : Prop :=
  ∀ room conns, subscribers w !! room = Some conns → conns !! c = None.

(** The session of [c] in [w'] is the session [s] of an earlier state,
    possibly closed since. *)
Definition same_session (s s' : Session) : Prop :=
  s_room s' = s_room s ∧ s_request_ctx s' = s_request_ctx s ∧ s_ctx s' = s_ctx s.

(** Room ["R"] after its first subscription, and after that session has
    returned. *)
Definition world_R1 : World :=
  {| subscribers := {["R" := {[1%positive := 11%positive]}]};
     cancelled := ∅;
     contexts := {[10%positive; 11%positive]};
     broken := ∅;
     sessions :=
       {[1%positive := {| s_room := mkUUID "R"; s_request_ctx := 10%positive;
                          s_ctx := 11%positive; s_closed := false |}]} |}.

Definition world_R1_closed : World :=
  {| subscribers := {["R" := ∅]};
     cancelled := {[10%positive]};
     contexts := {[10%positive; 11%positive]};
     broken := ∅;
     sessions :=
       {[1%positive := {| s_room := mkUUID "R"; s_request_ctx := 10%positive;
                          s_ctx := 11%positive; s_closed := true |}]} |}.

(** [world_R12] after a broadcast that failed on connection [1] and the
    cleanup of that session. *)
Definition world_R12_dropped : World :=
  {| subscribers := {["R" := {[2%positive := 12%positive]}]};
     cancelled := {[11%positive]};
     contexts := {[10%positive; 11%positive; 20%positive; 12%positive]};
     broken := {[1%positive]};
     sessions :=
       {[1%positive := {| s_room := mkUUID "R"; s_request_ctx := 10%positive;
                          s_ctx := 11%positive; s_closed := true |};
         2%positive := {| s_room := mkUUID "R"; s_request_ctx := 20%positive;
                          s_ctx := 12%positive; s_closed := false |}]} |}.

(** [world_R12] after the broadcast alone: the context of connection [1]
    is cancelled, its session has not run its cleanup yet. *)
Definition world_R12_cancelled : World :=
  {| subscribers := subscribers world_R12;
     cancelled := {[11%positive]};
     contexts := contexts world_R12;
     broken := broken world_R12;
     sessions := sessions world_R12 |}.

Definition schedule_drop_1 : list label :=
  [LNotify message_m1 [(2%positive, 12%positive); (1%positive, 11%positive)];
   LResume 1%positive].

Definition trace_drop_1 : list event :=
  [ConnWriteJSON 2%positive (marshal_Message message_m1) true;
   ConnWriteJSON 1%positive (marshal_Message message_m1) false;
   SlogError "failed to send message to client";
   Cancel 11%positive;
   SubscribersDelete "R" 1%positive;
   ConnClose 1%positive].

(** ** Further notions for the registry *)

(** What one iteration of the loop of [notifyClients] does for the entry
    [sub], given the set of broken transports. *)
Definition iteration_events (msg : Message) (b : gset Conn) (sub : Conn * CancelFunc)
    : list event :=
  if bool_decide (sub.1 ∉ b)
  then [ConnWriteJSON sub.1 (marshal_Message msg) true]
  else [ConnWriteJSON sub.1 (marshal_Message msg) false;
        SlogError "failed to send message to client";
        Cancel sub.2].

(** Every session that has not returned has its entry, under its room, with
    the cancel function of its context. *)
Definition sessions_registered (w : World) : Prop :=
  ∀ c s, sessions w !! c = Some s → s_closed s = false →
    ∃ conns, subscribers w !! UUID_String (s_room s) = Some conns ∧
             conns !! c = Some (s_ctx s).

(** Two sessions that interleave on the registry: distinct (room, connection)
    pairs. *)
Definition distinct_entries (room1 : string) (c1 : Conn) (room2 : string) (c2 : Conn) : Prop :=
  room1 ≠ room2 ∨ c1 ≠ c2.

(** * The other controllers of the package *)

(** ** internal/mappers *)

(** A Go slice, with [nil] told apart from an empty slice: [encoding/json]
    writes the former as [null] and the latter as an empty array. *)
Definition slice (A : Type) : Type := option (list A).

Definition slice_elems {A : Type} (s : slice A) : list A := default [] s.

(** [append(s, x)]: never [nil]. *)
Definition append {A : Type} (s : slice A) (x : A) : slice A :=
  Some (slice_elems s ++ [x]).

Record RoomMessage := {
  rm_ID : string;               (* `json:"id"` *)
  rm_RoomID : string;           (* `json:"room_id"` *)
  rm_Message : string;          (* `json:"message"` *)
  rm_ReactionCount : Z;         (* `json:"reaction_count"` *)
  rm_Answered : bool;           (* `json:"answered"` *)
}.

Definition to_RoomMessage (message : pg_Message) : RoomMessage :=
  {| rm_ID := UUID_String (pg_ID message);
     rm_RoomID := UUID_String (pg_RoomID message);
     rm_Message := pg_Message_text message;
     rm_ReactionCount := pg_ReactionCount message;
     rm_Answered := pg_Answered message |}.

(** [var roomMessages []RoomMessage], then one [append] per message. *)
Definition MapMessageToRoomMessage (messages : slice pg_Message) : slice RoomMessage :=
  foldl (λ roomMessages message, append roomMessages (to_RoomMessage message))
        None (slice_elems messages).

(** ** JSON values of the read endpoints *)

#[warnings="-register-all"]
Inductive jvalue :=
  | VNull
  | VBool (b : bool)
  | VNumber (n : Z)
  | VString (s : string)
  | VArray (items : list jvalue)
  | VObject (fields : list (string * jvalue)).

Definition vmarshal_fields (fs : list (json_tag * jvalue)) : jvalue :=
  VObject (omap (λ f, match f.1 with
                      | TagName k => Some (k, f.2)
                      | TagSkip => None
                      end) fs).

Definition marshal_slice {A : Type} (marshal : A → jvalue) (s : slice A) : jvalue :=
  match s with
  | None => VNull
  | Some l => VArray (marshal <$> l)
  end.

Definition marshal_RoomMessage (m : RoomMessage) : jvalue :=
  vmarshal_fields [(TagName "id", VString (rm_ID m));
                   (TagName "room_id", VString (rm_RoomID m));
                   (TagName "message", VString (rm_Message m));
                   (TagName "reaction_count", VNumber (rm_ReactionCount m));
                   (TagName "answered", VBool (rm_Answered m))].

(** ** Collaborators and events of the other controllers *)

(** The rest of [pg.Queries] and of [encoding/json].  [pg.Room] and the JSON
    tags of [pg.Room] and [pg.Message] are declared in [internal/store/pg],
    outside the sources at hand: the type and the two renderings are
    components of the record. *)
Record ApiDeps := {
  Room : Type;
  q_InsertRoom : string → result UUID;
  q_GetRooms : result (slice Room);
  q_GetRoomMessages : UUID → result (slice pg_Message);
  q_ReactToMessage : UUID → result Z;
  q_MarkMessageAsAnswered : UUID → option error;
  json_Decode_theme : string → result string;        (* Decode(&body); body.Theme *)
  marshal_pg_Room : Room → jvalue;
  marshal_pg_Message : pg_Message → jvalue;
  json_Marshal_value : jvalue → result string;
}.

Inductive api_event :=
  | Core (e : event)
  | QInsertRoom (theme : string)
  | QGetRooms
  | QGetRoomMessages (room : UUID)
  | QReactToMessage (id : UUID)
  | QMarkMessageAsAnswered (id : UUID).

Definition Api (A : Type) : Type := (list api_event * option A)%type.

#[export] Instance Api_ret : MRet Api := λ A x, ([], Some x).

#[export] Instance Api_bind : MBind Api := λ A B f m,
  match m with
  | (tr, Some x) => let '(tr', y) := f x in (tr ++ tr', y)
  | (tr, None) => (tr, None)
  end.

(** A piece of handler that only performs events of the first kind. *)
Definition core {A : Type} (h : Handler A) : Api A := (Core <$> h.1, h.2).

Definition api_emit (e : api_event) : Api unit := ([e], Some tt).

Definition api_return {A : Type} : Api A := ([], None).

Definition api_or_return {A : Type} (r : result A) (onErr : error → Handler unit) : Api A :=
  match r with
  | Ok a => mret a
  | Err err => core (onErr err);; api_return
  end.

Definition api_when_return (cond : bool) (body : Handler unit) : Api unit :=
  if cond then core body;; api_return else mret tt.

(** [json.Marshal], the header, [w.Write], for the values of the read
    endpoints; these never call [w.WriteHeader]. *)
Definition write_value_response (d : Deps) (x : ApiDeps) (v : jvalue) : Api unit :=
  data ← api_or_return (json_Marshal_value x v)
           (λ _, LogErrorAndRespond "failed to marshal response" "something went wrong"
                   StatusInternalServerError);
  core (emit (HeaderSet "Content-Type" "application/json"));;
  match w_Write d data with
  | Ok _ => core (emit (ResponseWrite data true))
  | Err _ =>
      core (emit (ResponseWrite data false));;
      core (LogErrorAndRespond "failed to write response" "something went wrong"
              StatusInternalServerError);;
      api_return
  end.

Definition handleCreateRoom (d : Deps) (x : ApiDeps) (r : Request) : Api unit :=
  body_Theme ← api_or_return (json_Decode_theme x (Body r))
                 (λ _, emit (HttpError "invalid json" StatusBadRequest));
  api_emit (QInsertRoom body_Theme);;
  roomId ← api_or_return (q_InsertRoom x body_Theme)
             (λ _, LogErrorAndRespond "failed to insert room" "something went wrong"
                     StatusInternalServerError);
  core (write_json_response d (Some StatusCreated)
          (marshal_fields [(TagName "id", JString (UUID_String roomId))])).

Definition handleGetRooms (d : Deps) (x : ApiDeps) (r : Request) : Api unit :=
  api_emit QGetRooms;;
  rooms ← api_or_return (q_GetRooms x) (respond_lookup_error "room not found");
  write_value_response d x
    (vmarshal_fields [(TagName "rooms", marshal_slice (marshal_pg_Room x) rooms)]).

(** [response{RoomID: roomId.String(),
    Messages: mappers.MapMessageToRoomMessage(messages)}] of
    [handleGetRoomMessages], as [json.Marshal] renders it. *)
Definition room_messages_response (roomId : UUID) (messages : slice pg_Message) : jvalue :=
  vmarshal_fields
    [(TagName "room_id", VString (UUID_String roomId));
     (TagName "messages",
      marshal_slice marshal_RoomMessage (MapMessageToRoomMessage messages))].

Definition handleGetRoomMessages (d : Deps) (x : ApiDeps) (r : Request) : Api unit :=
  roomId ← api_or_return (ParseUUIDParam d r "room_id")
             (λ _, emit (HttpError "invalid room id" StatusBadRequest));
  api_emit (QGetRoomMessages roomId);;
  messages ← api_or_return (q_GetRoomMessages x roomId)
               (respond_lookup_error "room not found");
  write_value_response d x (room_messages_response roomId messages).

Definition handleGetRoomMessage (d : Deps) (x : ApiDeps) (r : Request) : Api unit :=
  roomID ← api_or_return (ParseUUIDParam d r "room_id")
             (λ _, emit (HttpError "invalid room id" StatusBadRequest));
  messageId ← api_or_return (ParseUUIDParam d r "message_id")
                (λ _, emit (HttpError "invalid message id" StatusBadRequest));
  core (emit (QGetMessage messageId));;
  message ← api_or_return (q_GetMessage d messageId)
              (respond_lookup_error "message not found");
  api_when_return (negb (String.eqb (UUID_String (pg_RoomID message)) (UUID_String roomID)))
    (emit (HttpError "message not found" StatusNotFound));;
  write_value_response d x
    (vmarshal_fields [(TagName "message", marshal_pg_Message x message)]).

Definition handleReactToMessage (d : Deps) (x : ApiDeps) (r : Request) : Api unit :=
  roomID ← api_or_return (ParseUUIDParam d r "room_id")
             (λ _, emit (HttpError "invalid room id" StatusBadRequest));
  messageId ← api_or_return (ParseUUIDParam d r "message_id")
                (λ _, emit (HttpError "invalid message id" StatusBadRequest));
  core (emit (QGetMessage messageId));;
  message ← api_or_return (q_GetMessage d messageId)
              (respond_lookup_error "message not found");
  api_when_return (negb (String.eqb (UUID_String (pg_RoomID message)) (UUID_String roomID)))
    (emit (HttpError "message not found" StatusNotFound));;
  api_emit (QReactToMessage messageId);;
  count ← api_or_return (q_ReactToMessage x messageId)
            (λ _, emit (HttpError "something went wrong" StatusInternalServerError));
  core (write_json_response d (Some StatusOK)
          (marshal_fields [(TagName "count", JNumber count)])).

Definition handleMarkMessageAsAnswered (d : Deps) (x : ApiDeps) (r : Request) : Api unit :=
  roomID ← api_or_return (ParseUUIDParam d r "room_id")
             (λ _, emit (HttpError "invalid room id" StatusBadRequest));
  messageId ← api_or_return (ParseUUIDParam d r "message_id")
                (λ _, emit (HttpError "invalid message id" StatusBadRequest));
  core (emit (QGetMessage messageId));;
  message ← api_or_return (q_GetMessage d messageId)
              (respond_lookup_error "message not found");
  api_when_return (negb (String.eqb (UUID_String (pg_RoomID message)) (UUID_String roomID)))
    (emit (HttpError "message not found" StatusNotFound));;
  api_when_return (pg_Answered message)
    (emit (WriteHeader StatusNoContent));;
  api_emit (QMarkMessageAsAnswered messageId);;
  match q_MarkMessageAsAnswered x messageId with
  | Some _ =>
      core (emit (HttpError "something went wrong" StatusInternalServerError));;
      api_return
  | None => mret tt
  end;;
  core (emit (WriteHeader StatusNoContent)).

(** ** Reading the traces of the controllers *)

Definition core_trace (tr : list api_event) : list event :=
  omap (λ e, match e with Core e => Some e | _ => None end) tr.

(** The store calls that change the database. *)
Definition is_mutation (e : api_event) : bool :=
  match e with
  | QInsertRoom _ | QReactToMessage _ | QMarkMessageAsAnswered _
  | Core (QInsertMessage _ _) | Core (QRemoveReactionFromMessage _) => true
  | _ => false
  end.

Definition is_store_call (e : api_event) : bool :=
  match e with
  | Core (QGetRoom _ | QGetMessage _ | QInsertMessage _ _ | QRemoveReactionFromMessage _) => true
  | Core _ => false
  | _ => true
  end.

Definition is_HttpError (e : api_event) : bool :=
  match e with Core (HttpError _ _) => true | _ => false end.

Definition is_body_write (e : api_event) : bool :=
  match e with Core (ResponseWrite _ _) => true | _ => false end.

Fixpoint count_api (p : api_event → bool) (tr : list api_event) : nat :=
  match tr with
  | [] => 0
  | e :: tr => (if p e then 1 else 0) + count_api p tr
  end.

(** The calls of a trace that change the database, in order. *)
Definition mutations (tr : list api_event) : list api_event :=
  omap (λ e, if is_mutation e then Some e else None) tr.

(** The bodies handed to [w.Write]. *)
Definition bodies (tr : list api_event) : list string :=
  omap (λ e, match e with Core (ResponseWrite data _) => Some data | _ => None end) tr.

(** Every controller of the package, on a request: the ones above, and the
    ones of the first part under [core]. *)
Inductive controller :=
  | CSubscribeToRoom | CCreateRoom | CGetRooms | CCreateRoomMessage | CGetRoomMessages
  | CGetRoomMessage | CReactToMessage | CRemoveReactionFromMessage | CMarkMessageAsAnswered.

(** The events a controller performs before it returns or, for the
    subscription, before it waits. *)
Definition serve (k : controller) (d : Deps) (x : ApiDeps) (r : Request) : list api_event :=
  match k with
  | CSubscribeToRoom => Core <$> (handleSubscribeToRoom_accept d r).1
  | CCreateRoom => (handleCreateRoom d x r).1
  | CGetRooms => (handleGetRooms d x r).1
  | CCreateRoomMessage => Core <$> (handleCreateRoomMessage d r).1
  | CGetRoomMessages => (handleGetRoomMessages d x r).1
  | CGetRoomMessage => (handleGetRoomMessage d x r).1
  | CReactToMessage => (handleReactToMessage d x r).1
  | CRemoveReactionFromMessage => Core <$> (handleRemoveReactionFromMessage d r).1
  | CMarkMessageAsAnswered => (handleMarkMessageAsAnswered d x r).1
  end.

(** The controllers whose route carries a [room_id], and those whose route
    carries a [message_id] as well. *)
Definition has_room_id (k : controller) : bool :=
  match k with CCreateRoom | CGetRooms => false | _ => true end.

Definition has_message_id (k : controller) : bool :=
  match k with
  | CGetRoomMessage | CReactToMessage | CRemoveReactionFromMessage
  | CMarkMessageAsAnswered => true
  | _ => false
  end.

(** No event follows an [http.Error]. *)
Fixpoint errors_final (tr : list api_event) : bool :=
  match tr with
  | [] => true
  | e :: tr' =>
      (if is_HttpError e then match tr' with [] => true | _ => false end else true)
      && errors_final tr'
  end.

Definition with_Parse (f : string → result UUID) (d : Deps) : Deps := {|
  uuid_Parse := f; q_GetRoom := q_GetRoom d; q_InsertMessage := q_InsertMessage d;
  q_GetMessage := q_GetMessage d;
  q_RemoveReactionFromMessage := q_RemoveReactionFromMessage d;
  upgrader_Upgrade := upgrader_Upgrade d; json_Decode_message := json_Decode_message d;
  json_Marshal := json_Marshal d; w_Write := w_Write d |}.

(** Collaborators of the other controllers that all succeed. *)
Definition api_ok : ApiDeps := {|
  Room := string;
  q_InsertRoom := λ _, Ok (mkUUID "R");
  q_GetRooms := Ok None;
  q_GetRoomMessages := λ _, Ok None;
  q_ReactToMessage := λ _, Ok 1%Z;
  q_MarkMessageAsAnswered := λ _, None;
  json_Decode_theme := λ s, Ok s;
  marshal_pg_Room := VString;
  marshal_pg_Message := λ m, VString (pg_Message_text m);
  json_Marshal_value := λ _, Ok "data" |}.

(** The controllers that only read. *)
Definition is_read_only (k : controller) : bool :=
  match k with
  | CSubscribeToRoom | CGetRooms | CGetRoomMessages | CGetRoomMessage => true
  | _ => false
  end.

(** * Properties *)

Lemma count_events_app p tr1 tr2 :
  count_events p (tr1 ++ tr2) = count_events p tr1 + count_events p tr2.
Proof. induction tr1 as [|e tr1 IH]; simpl; [done | rewrite IH; lia]. Qed.

(** ** The remove-reaction handler *)

(** C10 (as the code has it): once the message lookup has succeeded, a stored
    reaction count of zero never reaches the store's decrement, and answers
    204 No Content when the message belongs to the room of the request; a
    message that belongs to another room is answered 404 "message not
    found", whatever its count, without a decrement; the decrement is
    called at most once, and only for a message of that room whose observed
    count is not zero, hence positive whenever the stored count is not
    negative. *)
Theorem remove_reaction_guard d r roomID messageId message :
  ParseUUIDParam d r "room_id" = Ok roomID →
  ParseUUIDParam d r "message_id" = Ok messageId →
  q_GetMessage d messageId = Ok message →
  let tr := trace (handleRemoveReactionFromMessage d r) in
  (pg_ReactionCount message = 0%Z →
     count_events is_RemoveReaction tr = 0 ∧
     (UUID_String (pg_RoomID message) = UUID_String roomID →
        status_codes tr = [StatusNoContent])) ∧
  (UUID_String (pg_RoomID message) ≠ UUID_String roomID →
     status_codes tr = [StatusNotFound] ∧
     http_errors tr = [("message not found", StatusNotFound)] ∧
     count_events is_RemoveReaction tr = 0) ∧
  (count_events is_RemoveReaction tr ≠ 0 →
     pg_ReactionCount message ≠ 0%Z ∧
     UUID_String (pg_RoomID message) = UUID_String roomID ∧
     ((0 ≤ pg_ReactionCount message)%Z → (0 < pg_ReactionCount message)%Z)) ∧
  count_events is_RemoveReaction tr ≤ 1.
Proof.
  intros Hroom Hmsg Hget.
  unfold handleRemoveReactionFromMessage.
  rewrite Hroom, Hmsg. cbn -[String.eqb Z.eqb].
  rewrite Hget. cbn -[String.eqb Z.eqb].
  destruct (String.eqb_spec (UUID_String (pg_RoomID message)) (UUID_String roomID))
    as [Heq|Hne]; cbn -[Z.eqb].
  - destruct (Z.eqb_spec (pg_ReactionCount message) 0) as [Hz|Hnz]; cbn.
    + repeat split; try done; lia.
    + unfold write_json_response.
      destruct (q_RemoveReactionFromMessage d messageId); cbn;
        [destruct (json_Marshal d _); cbn; [destruct (w_Write d _); cbn|]|];
        (repeat split; try done; try lia).
  - repeat split; try done; lia.
Qed.

Lemma remove_reaction_guard_witness :
  (count_events is_RemoveReaction
     (trace (handleRemoveReactionFromMessage deps_ok request_R)) = 0 ∧
   status_codes (trace (handleRemoveReactionFromMessage deps_ok request_R))
   = [StatusNoContent]) ∧
  status_codes (trace (handleRemoveReactionFromMessage
                         (with_GetMessage (stored_message "S" 3) deps_ok) request_R))
  = [StatusNotFound].
Proof.
  split.
  - destruct (remove_reaction_guard deps_ok request_R (mkUUID "R") (mkUUID "R")
                {| pg_ID := mkUUID "R"; pg_RoomID := mkUUID "R"; pg_Message_text := "hi";
                   pg_ReactionCount := 0; pg_Answered := false |}
                eq_refl eq_refl eq_refl) as [Hzero _].
    destruct (Hzero eq_refl) as [Hcount Hstatus].
    split; [exact Hcount | exact (Hstatus eq_refl)].
  - destruct (remove_reaction_guard (with_GetMessage (stored_message "S" 3) deps_ok)
                request_R (mkUUID "R") (mkUUID "R")
                {| pg_ID := mkUUID "R"; pg_RoomID := mkUUID "S"; pg_Message_text := "hi";
                   pg_ReactionCount := 3; pg_Answered := false |}
                eq_refl eq_refl eq_refl) as (_ & Hother & _).
    apply Hother. cbn. discriminate.
Defined.

(** A stored count of -1 is not zero, so the decrement is called on it. *)
Lemma decrement_on_negative_count :
  ¬ decrement_only_when_positive
      (with_GetMessage (stored_message "R" (-1)) deps_ok) request_R.
Proof.
  intros H.
  destruct (H (mkUUID "R") (mkUUID "R") _ eq_refl eq_refl eq_refl) as [_ Hpos].
  cbn in Hpos. assert (1 ≠ 0) as Hne by lia. specialize (Hpos Hne). lia.
Qed.

(** A message of another room with a zero count answers 404, not 204. *)
Example zero_count_other_room :
  status_codes (trace (handleRemoveReactionFromMessage
                         (with_GetMessage (stored_message "S" 0) deps_ok) request_R))
  = [StatusNotFound].
Proof. reflexivity. Qed.

(** ** The subscription handshake *)

Ltac preceded_by_solve :=
  preceded_by_cases;
  first [ by (exists 0; eexists; split; [lia | split; reflexivity])
        | by (exists 1; eexists; split; [lia | split; reflexivity])
        | by (exists 2; eexists; split; [lia | split; reflexivity])
        | by (exists 3; eexists; split; [lia | split; reflexivity])
        | by (exists 4; eexists; split; [lia | split; reflexivity]) ].

(** C1 (as the code has it): the handler asks the store for the room before
    it attempts the websocket upgrade, and registers the connection only
    after a successful upgrade.  A failed handshake is answered with 400,
    registers nothing and leaves the registry as it was; a session that
    registers has performed exactly lookup, upgrade, registration, in that
    order. *)
Theorem subscribe_sequence d r ctx w :
  let res := handleSubscribeToRoom_register d r ctx w in
  let tr := res.1.2 in
  preceded_by is_GetRoom is_Upgrade tr ∧
  preceded_by is_Upgrade_ok is_SubscribersInsert tr ∧
  (count_events is_Upgrade_failed tr ≠ 0 →
     http_errors tr = [("failed to upgrade connection", StatusBadRequest)] ∧
     count_events is_SubscribersInsert tr = 0 ∧ res.2 = None ∧ res.1.1 = w) ∧
  (∀ c, res.2 = Some c →
     ∃ roomId,
       tr = [QGetRoom roomId; UpgraderUpgrade true;
             SubscribersInsert (UUID_String roomId) c;
             SlogInfo "new subscriber connected"] ∧
       subscribers res.1.1 !! UUID_String roomId ≫= (.!! c) = Some ctx).
Proof.
  unfold handleSubscribeToRoom_register, handleSubscribeToRoom_accept, ParseUUIDParam.
  destruct (uuid_Parse d (URLParam r "room_id")) as [roomId|e0]; cbn.
  2: { repeat split; try preceded_by_solve; try done. }
  destruct (q_GetRoom d roomId) as [[]|e1]; cbn.
  2: { unfold respond_lookup_error. destruct (errors_Is_ErrNoRows e1); cbn;
       (repeat split; try preceded_by_solve; try done). }
  destruct (upgrader_Upgrade d r) as [c|e2]; cbn.
  2: { repeat split; try preceded_by_solve; try done. }
  repeat split; try preceded_by_solve; try done.
  intros c' [= <-]. exists roomId. split; [done|].
  unfold subscribe. rewrite lookup_insert_eq. cbn. by rewrite lookup_insert_eq.
Qed.

(** With a room that exists and an upgrade that succeeds, the store lookup
    is the first thing the handler does: no upgrade comes before it. *)
Lemma lookup_precedes_upgrade :
  ¬ upgrade_before_lookup deps_ok request_R 11%positive NewHandler.
Proof.
  intros H.
  destruct (H 0 (QGetRoom (mkUUID "R")) eq_refl eq_refl) as (i & e' & Hlt & _).
  lia.
Qed.

(** With a room that the store does not know, the handshake is not even
    attempted. *)
Example missing_room_is_not_upgraded :
  (handleSubscribeToRoom_register (with_GetRoom (λ _, Err ErrNoRows) deps_ok)
     request_R 11%positive NewHandler).1.2
  = [QGetRoom (mkUUID "R"); HttpError "room not found" StatusNotFound].
Proof. reflexivity. Qed.

(** C7: when the room id parses and the store lookup fails, the client gets
    404 "room not found" if the store reports no row and 500 otherwise; in
    both cases no upgrade is attempted, nothing is registered, and the
    registry and the sessions are left as they were. *)
Theorem subscribe_validation_failure d r ctx w roomId err :
  ParseUUIDParam d r "room_id" = Ok roomId →
  q_GetRoom d roomId = Err err →
  let res := handleSubscribeToRoom_register d r ctx w in
  http_errors res.1.2
  = [if errors_Is_ErrNoRows err
     then ("room not found", StatusNotFound)
     else ("something went wrong", StatusInternalServerError)] ∧
  count_events is_Upgrade res.1.2 = 0 ∧
  count_events is_SubscribersInsert res.1.2 = 0 ∧
  res.2 = None ∧ res.1.1 = w ∧
  (∀ w' tr, step w (LSubscribe d r ctx) = Some (w', tr) → w' = w).
Proof.
  intros Hparse Hget.
  assert (handleSubscribeToRoom_register d r ctx w
          = (w, [QGetRoom roomId;
                 if errors_Is_ErrNoRows err
                 then HttpError "room not found" StatusNotFound
                 else HttpError "something went wrong" StatusInternalServerError],
             None)) as Hres.
  { unfold handleSubscribeToRoom_register, handleSubscribeToRoom_accept.
    rewrite Hparse. cbn. rewrite Hget. cbn. unfold respond_lookup_error.
    by destruct (errors_Is_ErrNoRows err). }
  cbn zeta. unfold step. rewrite Hres. cbn.
  destruct (errors_Is_ErrNoRows err); cbn; repeat split; try done.
  all: intros w' tr; destruct (fresh_ctx w r ctx); cbn; congruence.
Qed.

Lemma subscribe_validation_failure_witness :
  http_errors (handleSubscribeToRoom_register (with_GetRoom (λ _, Err ErrNoRows) deps_ok)
                 request_R 11%positive NewHandler).1.2
  = [("room not found", StatusNotFound)] ∧
  http_errors (handleSubscribeToRoom_register
                 (with_GetRoom (λ _, Err (ErrOther "connection refused")) deps_ok)
                 request_R 11%positive NewHandler).1.2
  = [("something went wrong", StatusInternalServerError)].
Proof.
  split.
  - exact (proj1 (subscribe_validation_failure
                    (with_GetRoom (λ _, Err ErrNoRows) deps_ok) request_R 11%positive
                    NewHandler (mkUUID "R") ErrNoRows eq_refl eq_refl)).
  - exact (proj1 (subscribe_validation_failure
                    (with_GetRoom (λ _, Err (ErrOther "connection refused")) deps_ok)
                    request_R 11%positive NewHandler (mkUUID "R")
                    (ErrOther "connection refused") eq_refl eq_refl)).
Defined.

(** ** Publishing after a create-message request *)

(** The event is handed to [notifyClients] at most once per request, and
    never before the response has been written successfully. *)
Lemma publish_only_after_response d r :
  let tr := trace (handleCreateRoomMessage d r) in
  length (published tr) ≤ 1 ∧
  preceded_by is_ResponseWrite_ok is_GoNotifyClients tr ∧
  preceded_by is_InsertMessage is_GoNotifyClients tr.
Proof.
  unfold handleCreateRoomMessage, ParseUUIDParam, write_json_response.
  destruct (uuid_Parse d (URLParam r "room_id")) as [roomId|e0]; cbn.
  2: { repeat split; try preceded_by_solve; lia. }
  destruct (q_GetRoom d roomId) as [[]|e1]; cbn.
  2: { unfold respond_lookup_error. destruct (errors_Is_ErrNoRows e1); cbn;
       (repeat split; try preceded_by_solve; lia). }
  destruct (json_Decode_message d (Body r)) as [text|e2]; cbn.
  2: { repeat split; try preceded_by_solve; lia. }
  destruct (q_InsertMessage d roomId text) as [messageID|e3]; cbn.
  2: { repeat split; try preceded_by_solve; lia. }
  destruct (json_Marshal d _) as [data|e4]; cbn.
  2: { repeat split; try preceded_by_solve; lia. }
  destruct (w_Write d data) as [[]|e5]; cbn.
  2: { repeat split; try preceded_by_solve; lia. }
  repeat split; try preceded_by_solve; lia.
Qed.

(** C2 (as the code has it): when the insert succeeds and the response is
    then marshalled and written without error, the message-created event
    is handed to [notifyClients] exactly once, carrying the room, the id of
    the new message and its text; it is the last thing the handler does,
    after the store insert and after the response has been written. *)
Theorem create_message_publishes_once d r roomId text messageID data :
  ParseUUIDParam d r "room_id" = Ok roomId →
  q_GetRoom d roomId = Ok tt →
  json_Decode_message d (Body r) = Ok text →
  q_InsertMessage d roomId text = Ok messageID →
  json_Marshal d (marshal_fields [(TagName "id", JString (UUID_String messageID))])
  = Ok data →
  w_Write d data = Ok tt →
  let tr := trace (handleCreateRoomMessage d r) in
  published tr = [message_created roomId messageID text] ∧
  last tr = Some (GoNotifyClients (message_created roomId messageID text)) ∧
  preceded_by is_ResponseWrite_ok is_GoNotifyClients tr ∧
  preceded_by is_InsertMessage is_GoNotifyClients tr ∧
  status_codes tr = [StatusCreated].
Proof.
  intros Hparse Hroom Hbody Hins Hmarshal Hwrite.
  destruct (publish_only_after_response d r) as (_ & Hresp & Hinsert).
  cbn zeta. repeat split; [| | exact Hresp | exact Hinsert |].
  all: unfold handleCreateRoomMessage, write_json_response;
    rewrite Hparse; cbn; rewrite Hroom; cbn; rewrite Hbody; cbn;
    rewrite Hins; cbn; rewrite Hmarshal; cbn; rewrite Hwrite; reflexivity.
Qed.

Lemma create_message_publishes_once_witness :
  published (trace (handleCreateRoomMessage deps_ok request_R))
  = [message_created (mkUUID "R") (mkUUID "m1") "hi"].
Proof.
  exact (proj1 (create_message_publishes_once deps_ok request_R (mkUUID "R") "hi"
                  (mkUUID "m1") "data" eq_refl eq_refl eq_refl eq_refl eq_refl eq_refl)).
Defined.

(** The insert succeeds, the write of the response fails: the handler
    returns before the [go] statement and nothing is published. *)
Lemma failed_response_write_skips_publish :
  ¬ published_once_after_insert
      (with_Write (λ _, Err (ErrOther "broken pipe")) deps_ok) request_R.
Proof.
  intros H.
  specialize (H (mkUUID "R") "hi" (mkUUID "m1") eq_refl eq_refl eq_refl eq_refl).
  discriminate H.
Qed.

(** ** Membership: subscribe and unsubscribe *)

Lemma elem_of_members subs room c :
  (room, c) ∈ members subs ↔ ∃ conns, subs !! room = Some conns ∧ is_Some (conns !! c).
Proof.
  unfold members. rewrite elem_of_list_to_set, list_elem_of_bind. split.
  - intros ([room' conns] & Hin & Hrm). apply elem_of_map_to_list in Hrm.
    apply list_elem_of_fmap in Hin as (c' & [= -> ->] & Hc).
    apply elem_of_elements, elem_of_dom in Hc. eauto.
  - intros (conns & Hroom & Hc). exists (room, conns). split.
    + apply list_elem_of_fmap. exists c. split; [done|].
      by apply elem_of_elements, elem_of_dom.
    + by apply elem_of_map_to_list.
Qed.

Lemma subscribe_insert room c cancel subs :
  subscribe room c cancel subs
  = <[room := <[c := cancel]> (default ∅ (subs !! room))]> subs.
Proof.
  unfold subscribe. destruct (subs !! room) as [conns|] eqn:Hroom; cbn.
  - by rewrite (lookup_total_correct _ _ _ Hroom).
  - by rewrite lookup_total_insert_eq, insert_insert_eq.
Qed.

Lemma members_subscribe room c cancel subs :
  members (subscribe room c cancel subs) = {[(room, c)]} ∪ members subs.
Proof.
  rewrite subscribe_insert. apply set_eq. intros [room' c'].
  rewrite elem_of_union, elem_of_singleton, !elem_of_members. split.
  - intros (conns & Hroom & Hc).
    destruct (decide (room' = room)) as [->|Hne].
    + rewrite lookup_insert_eq in Hroom. injection Hroom as <-.
      destruct (decide (c' = c)) as [->|Hnc]; [by left|]. right.
      rewrite lookup_insert_ne in Hc by done.
      destruct (subs !! room) as [conns|]; cbn in Hc; [eauto|].
      rewrite lookup_empty in Hc. by destruct Hc.
    + rewrite lookup_insert_ne in Hroom by done. eauto.
  - intros [[= -> ->]|(conns & Hroom & Hc)].
    + eexists. rewrite lookup_insert_eq. split; [done|].
      rewrite lookup_insert_eq. eauto.
    + destruct (decide (room' = room)) as [->|Hne].
      * eexists. rewrite lookup_insert_eq. split; [done|].
        rewrite Hroom. cbn.
        destruct (decide (c' = c)) as [->|Hnc];
          [rewrite lookup_insert_eq; eauto | by rewrite lookup_insert_ne].
      * exists conns. by rewrite lookup_insert_ne.
Qed.

Lemma members_unsubscribe room c subs :
  members (unsubscribe room c subs) = members subs ∖ {[(room, c)]}.
Proof.
  apply set_eq. intros [room' c'].
  rewrite elem_of_difference, elem_of_singleton, !elem_of_members.
  unfold unsubscribe. destruct (subs !! room) as [conns|] eqn:Hroom.
  - split.
    + intros (conns' & Hroom' & Hc).
      destruct (decide (room' = room)) as [->|Hne].
      * rewrite lookup_insert_eq in Hroom'. injection Hroom' as <-.
        destruct (decide (c' = c)) as [->|Hnc].
        { rewrite lookup_delete_eq in Hc. by destruct Hc. }
        rewrite lookup_delete_ne in Hc by done. split; [eauto | congruence].
      * rewrite lookup_insert_ne in Hroom' by done. split; [eauto | congruence].
    + intros [(conns' & Hroom' & Hc) Hne].
      destruct (decide (room' = room)) as [->|Hnr].
      * eexists. rewrite lookup_insert_eq. split; [done|].
        assert (c' ≠ c) by congruence.
        rewrite lookup_delete_ne by done. congruence.
      * exists conns'. by rewrite lookup_insert_ne.
  - split.
    + intros (conns' & Hroom' & Hc). split; [eauto|].
      intros [= -> ->]. congruence.
    + intros [Hin _]. exact Hin.
Qed.

Lemma unsubscribe_absent room c subs :
  (room, c) ∉ members subs → unsubscribe room c subs = subs.
Proof.
  intros Hnot. unfold unsubscribe.
  destruct (subs !! room) as [conns|] eqn:Hroom; [|done].
  apply insert_id. rewrite Hroom. f_equal. symmetry. apply delete_id.
  destruct (conns !! c) eqn:Hc; [|done].
  exfalso. apply Hnot, elem_of_members. eauto.
Qed.

(** C6: from any registry, a sequence of subscribe and unsubscribe
    operations of one (room, connection) pair leaves exactly the membership
    obtained by applying the same sequence, in order, to the set of pairs
    (subscribe inserts the pair, unsubscribe removes it); and an unsubscribe
    of a pair that has no entry, in particular of a room that has no key,
    returns the registry unchanged. *)
Theorem subscribe_unsubscribe_sequence room c (ops : list registry_op)
    (subs : gmap string (gmap Conn CancelFunc)) :
  members (foldl (apply_op room c) subs ops)
  = foldl (set_apply_op room c) (members subs) ops ∧
  ((room, c) ∉ members subs → unsubscribe room c subs = subs) ∧
  (subs !! room = None → unsubscribe room c subs = subs).
Proof.
  split; [|split].
  - revert subs. induction ops as [|o ops IH]; intros subs; [done|].
    cbn [foldl]. rewrite IH. f_equal.
    destruct o; cbn; [apply members_subscribe | apply members_unsubscribe].
  - apply unsubscribe_absent.
  - intros Hroom. unfold unsubscribe. by rewrite Hroom.
Qed.

(** Subscribing connection [7] to room ["R"], dropping it twice and
    subscribing it again leaves it a member; dropping it from an empty
    registry leaves the registry empty. *)
Example subscribe_unsubscribe_run :
  members (foldl (apply_op "R" 7%positive) ∅
             [OpSubscribe 3%positive; OpUnsubscribe; OpUnsubscribe; OpSubscribe 4%positive])
  = {[("R", 7%positive)]} ∧
  unsubscribe "R" 7%positive ∅ = ∅.
Proof. split; [by vm_compute | done]. Qed.

(** ** Broadcast to a room without subscribers *)

Lemma notify_no_key w msg order :
  subscribers w !! RoomID msg = None → notifyClients w msg order = (w, []).
Proof. intros Hroom. unfold notifyClients. by rewrite Hroom. Qed.

Lemma notify_no_subscribers_aux w msg order :
  subscribers w !! RoomID msg = Some ∅ → notifyClients w msg order = (w, []).
Proof.
  intros Hroom. unfold notifyClients. rewrite Hroom.
  by rewrite decide_True by apply map_size_empty.
Qed.

(** C8: a broadcast to a room whose key is absent, or whose connection set
    is empty, writes to no connection, invokes no cancel function, and
    returns the state it was given. *)
Theorem notify_no_subscribers w msg order :
  subscribers w !! RoomID msg = None ∨ subscribers w !! RoomID msg = Some ∅ →
  notifyClients w msg order = (w, []).
Proof.
  intros [Hroom|Hroom]; [by apply notify_no_key | by apply notify_no_subscribers_aux].
Qed.

Lemma notify_no_subscribers_witness :
  notifyClients NewHandler (message_created (mkUUID "R") (mkUUID "m1") "hi")
    [(1%positive, 11%positive)]
  = (NewHandler, []) ∧
  notifyClients (set_subscribers (λ _, {["R" := ∅]}) NewHandler)
    (message_created (mkUUID "R") (mkUUID "m1") "hi") [(1%positive, 11%positive)]
  = (set_subscribers (λ _, {["R" := ∅]}) NewHandler, []).
Proof.
  split.
  - apply (notify_no_subscribers NewHandler). left. reflexivity.
  - apply (notify_no_subscribers (set_subscribers (λ _, {["R" := ∅]}) NewHandler)).
    right. reflexivity.
Defined.

(** ** The fan-out loop *)

Section filter_by_key.
Context {A : Type}.
Implicit Types l : list (positive * A).

Lemma filter_in_iff (P Q : positive * A → Prop)
    `{!∀ x, Decision (P x), !∀ x, Decision (Q x)} l :
  (∀ x, x ∈ l → P x ↔ Q x) → filter P l = filter Q l.
Proof.
  induction l as [|x l IH]; intros Hiff; [done|].
  rewrite !filter_cons.
  assert (P x ↔ Q x) as Hx by (apply Hiff; left).
  rewrite IH by (intros y Hy; apply Hiff; by right).
  destruct (decide (P x)), (decide (Q x)); first [done | exfalso; tauto].
Qed.

Lemma filter_key_absent l c : c ∉ l.*1 → filter (λ s, s.1 = c) l = [].
Proof.
  induction l as [|[c' f'] l IH]; intros Hnot; [done|].
  rewrite fmap_cons in Hnot. apply not_elem_of_cons in Hnot as [Hne Hnot].
  rewrite filter_cons_False by (intros Heq; apply Hne; symmetry; exact Heq).
  by apply IH.
Qed.

Lemma filter_key_NoDup l c f :
  NoDup l.*1 → (c, f) ∈ l → filter (λ s, s.1 = c) l = [(c, f)].
Proof.
  induction l as [|[c' f'] l IH]; intros Hnd Hin.
  - by apply elem_of_nil in Hin.
  - rewrite fmap_cons in Hnd. apply NoDup_cons in Hnd as [Hfresh Hnd].
    apply elem_of_cons in Hin as [[= <- <-]|Hin].
    + rewrite filter_cons_True by done. f_equal. by apply filter_key_absent.
    + rewrite filter_cons_False; [by apply IH|].
      cbn. intros ->. apply Hfresh. apply list_elem_of_fmap. by exists (c, f).
Qed.

Lemma length_filter_complement (P : positive * A → Prop) `{!∀ x, Decision (P x)} l :
  length (filter P l) + length (filter (λ x, ¬ P x) l) = length l.
Proof.
  induction l as [|x l IH]; [done|].
  rewrite !filter_cons. destruct (decide (P x)), (decide (¬ P x)); cbn; try lia; done.
Qed.
End filter_by_key.

Lemma sent_to_ConnWriteJSON c c' v ok tr :
  sent_to c (ConnWriteJSON c' v ok :: tr)
  = if decide (c' = c) then (v, ok) :: sent_to c tr else sent_to c tr.
Proof. unfold sent_to. cbn. by destruct (decide (c' = c)). Qed.

(** The loop leaves the registry, the sessions and the transports alone; the
    contexts it cancels are those of the cancel functions it invoked. *)
Lemma range_subscribers_world msg order w :
  let res := range_subscribers msg order w in
  subscribers res.1 = subscribers w ∧ sessions res.1 = sessions w ∧
  broken res.1 = broken w ∧ contexts res.1 = contexts w ∧
  cancelled res.1 = list_to_set (cancels res.2) ∪ cancelled w.
Proof.
  revert w. induction order as [|[c f] order IH]; intros w; cbn.
  - repeat split; set_solver.
  - destruct (WriteJSON_ok w c); cbn.
    + apply IH.
    + destruct (IH (call_cancel f w)) as (Hs & Hse & Hb & Hc & Hcan).
      repeat split; try done. rewrite Hcan. cbn. set_solver.
Qed.

(** Each entry of the enumeration is written to once, with the marshalled
    message, and the write fails exactly on a broken transport. *)
Lemma range_subscribers_sent msg order w c :
  sent_to c (range_subscribers msg order w).2
  = (λ _, (marshal_Message msg, WriteJSON_ok w c)) <$> filter (λ s, s.1 = c) order.
Proof.
  revert w. induction order as [|[c' f] order IH]; intros w; [done|].
  cbn [range_subscribers]. rewrite filter_cons. cbn [fst snd].
  destruct (WriteJSON_ok w c') eqn:Hok; cbn [fst snd]; rewrite sent_to_ConnWriteJSON.
  - rewrite IH. destruct (decide (c' = c)) as [->|]; [|done].
    by rewrite fmap_cons, Hok.
  - change (sent_to c (?a :: ?b :: ?tr)) with (sent_to c tr).
    rewrite IH. change (WriteJSON_ok (call_cancel f w) c) with (WriteJSON_ok w c).
    destruct (decide (c' = c)) as [->|]; [|done].
    by rewrite fmap_cons, Hok.
Qed.

Lemma range_subscribers_attempts msg order w :
  write_attempts (range_subscribers msg order w).2 = order.*1.
Proof.
  revert w. induction order as [|[c f] order IH]; intros w; [done|].
  cbn. destruct (WriteJSON_ok w c); cbn; by rewrite IH.
Qed.

Lemma range_subscribers_cancels msg order w :
  cancels (range_subscribers msg order w).2
  = (filter (λ s, s.1 ∈ broken w) order).*2.
Proof.
  revert w. induction order as [|[c f] order IH]; intros w; [done|].
  cbn [range_subscribers]. rewrite filter_cons. cbn [fst snd]. unfold WriteJSON_ok.
  case_bool_decide as Hok; cbn [fst snd].
  - rewrite decide_False by done. change (cancels (?a :: ?tr)) with (cancels tr).
    exact (IH w).
  - rewrite decide_True by done.
    change (cancels (?a :: ?b :: Cancel ?g :: ?tr)) with (g :: cancels tr).
    rewrite IH. done.
Qed.

Lemma range_subscribers_delivered msg order w :
  delivered (range_subscribers msg order w).2
  = (filter (λ s, ¬ s.1 ∈ broken w) order).*1.
Proof.
  revert w. induction order as [|[c f] order IH]; intros w; [done|].
  cbn [range_subscribers]. rewrite filter_cons. cbn [fst snd]. unfold WriteJSON_ok.
  case_bool_decide as Hok; cbn [fst snd].
  - rewrite decide_True by done.
    change (delivered (ConnWriteJSON ?a ?v true :: ?tr)) with (a :: delivered tr).
    rewrite IH. done.
  - rewrite decide_False by (intros Hn; by apply Hn).
    change (delivered (?a :: ?b :: ?d :: ?tr)) with (delivered tr).
    exact (IH (call_cancel f w)).
Qed.

(** What an admissible enumeration of a room's connections looks like. *)
Lemma range_order_spec w msg order conns :
  subscribers w !! RoomID msg = Some conns →
  range_order w msg order →
  NoDup order.*1 ∧ length order = size conns ∧
  ∀ c f, (c, f) ∈ order ↔ conns !! c = Some f.
Proof.
  unfold range_order. intros -> Hperm. cbn in Hperm. split; [|split].
  - rewrite Hperm. apply NoDup_fst_map_to_list.
  - rewrite Hperm. apply length_map_to_list.
  - intros c f. rewrite Hperm. apply elem_of_map_to_list.
Qed.

Example world_R12_reached : fst <$> run NewHandler schedule_R12 = Some world_R12.
Proof. vm_compute. reflexivity. Qed.

(** ** What a broadcast delivers *)

(** C3: when the message-created event of a room is broadcast, every
    connection subscribed to that room at that time is written to exactly
    once, with the object
    {"kind":"message_created","value":{"id":<id>,"message":<text>}};
    nothing else is written and no other connection is written to; the
    object has the keys kind, value, id and message only, the room id is
    not part of it.  The write succeeds unless the transport is broken. *)
Theorem notify_payload w roomId messageID text order :
  range_order w (message_created roomId messageID text) order →
  let msg := message_created roomId messageID text in
  let tr := (notifyClients w msg order).2 in
  let object :=
    JObject [("kind", JString "message_created");
             ("value", JObject [("id", JString (UUID_String messageID));
                                ("message", JString text)])] in
  marshal_Message msg = object ∧
  json_keys (marshal_Message msg) = ["kind"; "value"; "id"; "message"] ∧
  (∀ conns c, subscribers w !! UUID_String roomId = Some conns → is_Some (conns !! c) →
     sent_to c tr = [(object, WriteJSON_ok w c)]) ∧
  (∀ c, c ∈ write_attempts tr →
     ∃ conns, subscribers w !! UUID_String roomId = Some conns ∧ is_Some (conns !! c)).
Proof.
  intros Horder msg tr object. split; [done|]. split; [done|].
  subst tr. unfold notifyClients.
  change (RoomID msg) with (UUID_String roomId).
  destruct (subscribers w !! UUID_String roomId) as [conns|] eqn:Hroom.
  2: { split; [done|]. cbn. intros c Hc. by apply elem_of_nil in Hc. }
  destruct (range_order_spec w msg order conns Hroom Horder) as (Hnd & _ & Hin).
  destruct (decide (size conns = 0)) as [Hsize|Hsize]; cbn [snd].
  - apply map_size_empty_inv in Hsize as ->. split.
    + intros conns c [= <-] [f Hf]. by rewrite lookup_empty in Hf.
    + intros c Hc. by apply elem_of_nil in Hc.
  - split.
    + intros conns' c [= <-] [f Hf].
      rewrite range_subscribers_sent.
      rewrite (filter_key_NoDup order c f Hnd) by (by apply Hin). done.
    + intros c Hc. rewrite range_subscribers_attempts in Hc.
      apply list_elem_of_fmap in Hc as ([c' f] & -> & Hcf).
      exists conns. split; [done|]. exists f. by apply Hin.
Qed.

Lemma notify_payload_witness :
  sent_to 2%positive
    (notifyClients world_R12 message_m1 [(2%positive, 12%positive); (1%positive, 11%positive)]).2
  = [(JObject [("kind", JString "message_created");
               ("value", JObject [("id", JString "m1"); ("message", JString "hi")])],
      true)].
Proof.
  assert (range_order world_R12 message_m1
            [(2%positive, 12%positive); (1%positive, 11%positive)]) as Horder.
  { unfold range_order. vm_compute. reflexivity. }
  destruct (notify_payload world_R12 (mkUUID "R") (mkUUID "m1") "hi" _ Horder)
    as (_ & _ & Hsent & _).
  apply (Hsent {[1%positive := 11%positive; 2%positive := 12%positive]}).
  - reflexivity.
  - exists 12%positive. reflexivity.
Defined.

(** ** A broadcast with one failing connection *)

(** C4: in a broadcast to a room of which exactly one subscribed connection
    fails on send, every other subscribed connection is written to once,
    successfully (that is all but one of them); the cancel function of
    the failed connection is the only one invoked, and it is invoked once;
    the broadcast returns, with the registry and the sessions as they were:
    it removes no entry. *)
Theorem notify_one_failure w msg order conns failed cancel :
  subscribers w !! RoomID msg = Some conns →
  range_order w msg order →
  conns !! failed = Some cancel →
  failed ∈ broken w →
  (∀ c, is_Some (conns !! c) → c ∈ broken w → c = failed) →
  let res := notifyClients w msg order in
  (∀ c, is_Some (conns !! c) → c ≠ failed →
     sent_to c res.2 = [(marshal_Message msg, true)]) ∧
  sent_to failed res.2 = [(marshal_Message msg, false)] ∧
  length (delivered res.2) = size conns - 1 ∧
  cancels res.2 = [cancel] ∧
  subscribers res.1 = subscribers w ∧
  sessions res.1 = sessions w ∧
  cancelled res.1 = {[cancel]} ∪ cancelled w.
Proof.
  intros Hroom Horder Hfailed Hbroken Honly.
  destruct (range_order_spec w msg order conns Hroom Horder) as (Hnd & Hlen & Hin).
  assert (filter (λ s, s.1 ∈ broken w) order = [(failed, cancel)]) as Hfilter.
  { rewrite <- (filter_key_NoDup order failed cancel Hnd) by (by apply Hin).
    apply filter_in_iff. intros [c f] Hcf. cbn. split.
    - intros Hc. apply Honly; [|done]. exists f. by apply Hin.
    - by intros ->. }
  assert (size conns ≠ 0) as Hsize.
  { intros Hz. apply map_size_empty_inv in Hz as ->. by rewrite lookup_empty in Hfailed. }
  cbn zeta. unfold notifyClients. rewrite Hroom, decide_False by done.
  destruct (range_subscribers_world msg order w) as (Hsubs & Hsess & _ & _ & Hcan).
  rewrite Hcan, !range_subscribers_cancels, !range_subscribers_delivered, Hfilter.
  repeat split; try done.
  - intros c [f Hf] Hne. rewrite range_subscribers_sent.
    rewrite (filter_key_NoDup order c f Hnd) by (by apply Hin).
    unfold WriteJSON_ok. rewrite bool_decide_true; [done|].
    intros Hc. apply Hne, Honly; [by exists f | done].
  - rewrite range_subscribers_sent.
    rewrite (filter_key_NoDup order failed cancel Hnd) by (by apply Hin).
    unfold WriteJSON_ok. rewrite bool_decide_false; [done|]. by intros Hn.
  - rewrite length_fmap.
    pose proof (length_filter_complement (λ s, s.1 ∈ broken w) order) as Hcount.
    rewrite Hfilter in Hcount. cbn in Hcount. lia.
  - cbn. set_solver.
Qed.

Lemma notify_one_failure_witness :
  let res := notifyClients world_R12 message_m1
               [(1%positive, 11%positive); (2%positive, 12%positive)] in
  sent_to 2%positive res.2 = [(marshal_Message message_m1, true)] ∧
  cancels res.2 = [11%positive] ∧
  subscribers res.1 = subscribers world_R12.
Proof.
  assert (range_order world_R12 message_m1
            [(1%positive, 11%positive); (2%positive, 12%positive)]) as Horder.
  { unfold range_order. vm_compute. apply perm_swap. }
  destruct (notify_one_failure world_R12 message_m1 _
              {[1%positive := 11%positive; 2%positive := 12%positive]}
              1%positive 11%positive eq_refl Horder eq_refl)
    as (Hothers & _ & _ & Hcancels & Hsubs & _).
  - cbn. set_solver.
  - cbn. intros c _ Hc. set_solver.
  - split; [|split; [exact Hcancels | exact Hsubs]].
    apply Hothers; [by exists 12%positive | done].
Defined.

(** ** Steps of the process *)

Lemma sent_to_app c tr1 tr2 : sent_to c (tr1 ++ tr2) = sent_to c tr1 ++ sent_to c tr2.
Proof. unfold sent_to. apply omap_app. Qed.

Lemma unsubscribes_app room c tr1 tr2 :
  unsubscribes room c (tr1 ++ tr2) = unsubscribes room c tr1 + unsubscribes room c tr2.
Proof. apply count_events_app. Qed.

(** The handshake writes to no websocket and deletes no entry; it either
    leaves the world alone or registers one new session. *)
Lemma register_inv d r ctx w :
  let res := handleSubscribeToRoom_register d r ctx w in
  (∀ c, sent_to c res.1.2 = []) ∧
  (∀ room c, unsubscribes room c res.1.2 = 0) ∧
  match res.2 with
  | None => res.1.1 = w
  | Some c =>
      ∃ roomId,
        subscribers res.1.1 = subscribe (UUID_String roomId) c ctx (subscribers w) ∧
        cancelled res.1.1 = cancelled w ∧ broken res.1.1 = broken w ∧
        sessions res.1.1
        = <[c := {| s_room := roomId; s_request_ctx := Context r;
                    s_ctx := ctx; s_closed := false |}]> (sessions w)
  end.
Proof.
  unfold handleSubscribeToRoom_register, handleSubscribeToRoom_accept, ParseUUIDParam.
  destruct (uuid_Parse d (URLParam r "room_id")) as [roomId|e0]; cbn; [|done].
  destruct (q_GetRoom d roomId) as [[]|e1]; cbn.
  2: { unfold respond_lookup_error. by destruct (errors_Is_ErrNoRows e1). }
  destruct (upgrader_Upgrade d r) as [c|e2]; cbn; [|done].
  repeat split; try done. by exists roomId.
Qed.

Lemma range_subscribers_unsubscribes msg order w room c :
  unsubscribes room c (range_subscribers msg order w).2 = 0.
Proof.
  revert w. induction order as [|[c' f] order IH]; intros w; [done|].
  cbn. destruct (WriteJSON_ok w c'); cbn; apply IH.
Qed.

Lemma notifyClients_world w msg order :
  let res := notifyClients w msg order in
  subscribers res.1 = subscribers w ∧ sessions res.1 = sessions w ∧
  broken res.1 = broken w ∧ cancelled w ⊆ cancelled res.1 ∧
  (∀ room c, unsubscribes room c res.2 = 0).
Proof.
  unfold notifyClients.
  destruct (subscribers w !! RoomID msg) as [conns|]; [|done].
  destruct (decide (size conns = 0)); [done|].
  destruct (range_subscribers_world msg order w) as (Hs & Hse & Hb & _ & Hc).
  cbn zeta. repeat split; try done.
  - rewrite Hc. set_solver.
  - intros room c. apply range_subscribers_unsubscribes.
Qed.

(** A broadcast writes only to connections that have an entry. *)
Lemma notifyClients_absent w msg order c :
  range_order w msg order → absent_everywhere c w →
  sent_to c (notifyClients w msg order).2 = [].
Proof.
  intros Horder Habs. unfold notifyClients.
  destruct (subscribers w !! RoomID msg) as [conns|] eqn:Hroom; [|done].
  destruct (decide (size conns = 0)); [done|].
  destruct (range_order_spec w msg order conns Hroom Horder) as (_ & _ & Hin).
  rewrite range_subscribers_sent, filter_key_absent; [done|].
  intros Hc. apply list_elem_of_fmap in Hc as ([c' f] & -> & Hcf).
  apply Hin in Hcf. pose proof (Habs _ _ Hroom) as Hnone. cbn in Hnone. congruence.
Qed.

(** A failed write to a registered connection cancels its session's context. *)
Lemma notifyClients_failed_write w msg order c s v :
  registry_owned w → range_order w msg order →
  sessions w !! c = Some s →
  (v, false) ∈ sent_to c (notifyClients w msg order).2 →
  s_ctx s ∈ cancelled (notifyClients w msg order).1.
Proof.
  intros Hown Horder Hs. unfold notifyClients.
  destruct (subscribers w !! RoomID msg) as [conns|] eqn:Hroom;
    [|intros Hv; by apply elem_of_nil in Hv].
  destruct (decide (size conns = 0)); [intros Hv; by apply elem_of_nil in Hv|].
  destruct (range_order_spec w msg order conns Hroom Horder) as (_ & _ & Hin).
  destruct (range_subscribers_world msg order w) as (_ & _ & _ & _ & Hcan).
  rewrite Hcan, range_subscribers_sent, range_subscribers_cancels.
  intros Hv. apply list_elem_of_fmap in Hv as ([c' f] & [= _ Hok] & Hcf).
  apply list_elem_of_filter in Hcf as [Hc Hcf]. cbn in Hc. subst c'.
  destruct (Hown _ _ _ _ Hroom (proj1 (Hin c f) Hcf)) as (s' & Hs' & _ & _ & Hctx).
  rewrite Hs in Hs'. injection Hs' as <-.
  apply elem_of_union_l, elem_of_list_to_set, list_elem_of_fmap.
  exists (c, f). split; [done|]. apply list_elem_of_filter. split; [|done].
  cbn. unfold WriteJSON_ok in Hok. symmetry in Hok.
  apply bool_decide_eq_false in Hok. by apply dec_stable in Hok.
Qed.

Lemma unsubscribe_lookup room c subs room' :
  unsubscribe room c subs !! room'
  = if decide (room' = room) then delete c <$> subs !! room' else subs !! room'.
Proof.
  unfold unsubscribe. destruct (decide (room' = room)) as [->|Hne].
  - destruct (subs !! room) as [conns|] eqn:Hroom.
    + by rewrite lookup_insert_eq.
    + by rewrite Hroom.
  - destruct (subs !! room) as [conns|]; [by rewrite lookup_insert_ne|done].
Qed.

Lemma subscribe_lookup room c cancel subs room' :
  subscribe room c cancel subs !! room'
  = if decide (room' = room) then Some (<[c := cancel]> (default ∅ (subs !! room)))
    else subs !! room'.
Proof.
  rewrite subscribe_insert. destruct (decide (room' = room)) as [->|Hne].
  - by rewrite lookup_insert_eq.
  - by rewrite lookup_insert_ne.
Qed.

Lemma step_cases w l w' tr :
  step w l = Some (w', tr) →
  match l with
  | LSubscribe d r ctx =>
      (handleSubscribeToRoom_register d r ctx w).1 = (w', tr) ∧
      fresh_conn w (handleSubscribeToRoom_register d r ctx w).2 = true
  | LRequestDone c =>
      ∃ s, sessions w !! c = Some s ∧ w' = call_cancel (s_request_ctx s) w ∧ tr = []
  | LBreak c =>
      subscribers w' = subscribers w ∧ sessions w' = sessions w ∧
      cancelled w' = cancelled w ∧ tr = []
  | LNotify msg order =>
      range_order w msg order ∧ notifyClients w msg order = (w', tr)
  | LResume c =>
      ∃ s, sessions w !! c = Some s ∧ s_closed s = false ∧ ctx_done w s ∧
           handleSubscribeToRoom_cleanup c s w = (w', tr)
  end.
Proof.
  destruct l as [d r ctx|c|c|msg order|c]; cbn.
  - destruct (fresh_conn w _) eqn:Hfresh; cbn; [|done].
    destruct (fresh_ctx w r ctx); [|done]. by intros [= <-].
  - destruct (sessions w !! c) as [s|]; [|done]. intros [= <- <-]. eauto.
  - by intros [= <- <-].
  - case_bool_decide; [|done]. by intros [= <-].
  - destruct (sessions w !! c) as [s|]; [|done].
    destruct (s_closed s) eqn:Hclosed; cbn; [done|].
    case_bool_decide; [|done]. intros [= <- <-]. eauto.
Qed.

(** No step removes a room key from [h.subscribers]. *)
Lemma step_keys w l w' tr room :
  step w l = Some (w', tr) →
  is_Some (subscribers w !! room) → is_Some (subscribers w' !! room).
Proof.
  intros Hstep Hroom. apply step_cases in Hstep.
  destruct l as [d r ctx|c|c|msg order|c].
  - destruct Hstep as [Hres _]. pose proof (register_inv d r ctx w) as (_ & _ & Hw).
    cbn zeta in Hw. rewrite Hres in Hw. cbn in Hw.
    destruct (handleSubscribeToRoom_register d r ctx w).2 as [c|].
    + destruct Hw as (roomId & -> & _). rewrite subscribe_lookup.
      by destruct (decide (room = UUID_String roomId)).
    + by subst w'.
  - by destruct Hstep as (s & _ & -> & _).
  - destruct Hstep as (-> & _). done.
  - destruct Hstep as [_ Hres].
    pose proof (notifyClients_world w msg order) as (Hs & _). cbn zeta in Hs.
    rewrite Hres in Hs. cbn in Hs. by rewrite Hs.
  - destruct Hstep as (s & _ & _ & _ & [= <- _]). cbn.
    rewrite unsubscribe_lookup.
    destruct (decide (room = UUID_String (s_room s))); [|done].
    by apply fmap_is_Some.
Qed.

(** The session of a connection stays what it is; it is closed by its own
    cleanup and by nothing else, and that cleanup is the one deletion of its
    entry. *)
Lemma step_session w l w' tr c s :
  step w l = Some (w', tr) →
  sessions w !! c = Some s →
  ∃ s', sessions w' !! c = Some s' ∧ same_session s s' ∧
        unsubscribes (UUID_String (s_room s)) c tr + (if s_closed s then 1 else 0)
        = (if s_closed s' then 1 else 0).
Proof.
  intros Hstep Hs. apply step_cases in Hstep.
  destruct l as [d r ctx|c'|c'|msg order|c'].
  - destruct Hstep as [Hres Hfresh].
    pose proof (register_inv d r ctx w) as (_ & Hdel & Hw).
    cbn zeta in Hw, Hdel. rewrite Hres in Hw, Hdel. cbn [fst snd] in Hw, Hdel.
    exists s. rewrite Hdel. split; [|done].
    destruct (handleSubscribeToRoom_register d r ctx w).2 as [c'|].
    + destruct Hw as (roomId & _ & _ & _ & ->). cbn in Hfresh.
      apply bool_decide_eq_true in Hfresh.
      rewrite lookup_insert_ne; [done|]. congruence.
    + by subst w'.
  - destruct Hstep as (s0 & _ & -> & ->). exists s. done.
  - destruct Hstep as (_ & -> & _ & ->). exists s. done.
  - destruct Hstep as [_ Hres].
    pose proof (notifyClients_world w msg order) as (_ & Hse & _ & _ & Hdel).
    cbn zeta in Hse, Hdel. rewrite Hres in Hse, Hdel. cbn [fst snd] in Hse, Hdel.
    exists s. by rewrite Hse, Hdel.
  - destruct Hstep as (s0 & Hs0 & Hopen & _ & [= <- <-]). cbn.
    destruct (decide (c' = c)) as [->|Hne].
    + rewrite Hs in Hs0. injection Hs0 as <-. rewrite lookup_insert_eq.
      eexists. split; [done|]. split; [done|]. cbn.
      rewrite Hopen, !bool_decide_true by done. done.
    + rewrite lookup_insert_ne by done. exists s. split; [done|]. split; [done|].
      cbn. rewrite (bool_decide_false (c' = c)) by done.
      rewrite andb_false_r. done.
Qed.

Lemma step_cancelled w l w' tr :
  step w l = Some (w', tr) → cancelled w ⊆ cancelled w'.
Proof.
  intros Hstep. apply step_cases in Hstep.
  destruct l as [d r ctx|c|c|msg order|c].
  - destruct Hstep as [Hres _]. pose proof (register_inv d r ctx w) as (_ & _ & Hw).
    cbn zeta in Hw. rewrite Hres in Hw. cbn in Hw.
    destruct (handleSubscribeToRoom_register d r ctx w).2 as [c|].
    + destruct Hw as (roomId & _ & -> & _). done.
    + by subst w'.
  - destruct Hstep as (s & _ & -> & _). cbn. set_solver.
  - destruct Hstep as (_ & _ & -> & _). done.
  - destruct Hstep as [_ Hres].
    pose proof (notifyClients_world w msg order) as (_ & _ & _ & Hc & _).
    cbn zeta in Hc. by rewrite Hres in Hc.
  - destruct Hstep as (s & _ & _ & _ & [= <- _]). done.
Qed.

(** Well-formedness is kept by every step. *)
Lemma step_owned w l w' tr :
  step w l = Some (w', tr) → registry_owned w → registry_owned w'.
Proof.
  intros Hstep Hown. apply step_cases in Hstep.
  destruct l as [d r ctx|c|c|msg order|c].
  - destruct Hstep as [Hres Hfresh].
    pose proof (register_inv d r ctx w) as (_ & _ & Hw).
    cbn zeta in Hw. rewrite Hres in Hw. cbn in Hw.
    destruct (handleSubscribeToRoom_register d r ctx w).2 as [c|]; [|by subst w'].
    destruct Hw as (roomId & Hsubs & _ & _ & Hsess). cbn in Hfresh.
    apply bool_decide_eq_true in Hfresh.
    intros room conns c' f Hroom Hc'. rewrite Hsubs, subscribe_lookup in Hroom.
    rewrite Hsess.
    destruct (decide (c' = c)) as [->|Hne].
    + rewrite lookup_insert_eq.
      destruct (decide (room = UUID_String roomId)) as [->|Hnr].
      * injection Hroom as <-. rewrite lookup_insert_eq in Hc'.
        injection Hc' as <-. eauto.
      * destruct (Hown _ _ _ _ Hroom Hc') as (s & Hs & _). congruence.
    + rewrite lookup_insert_ne by done.
      destruct (decide (room = UUID_String roomId)) as [->|Hnr].
      * injection Hroom as <-. rewrite lookup_insert_ne in Hc' by done.
        destruct (subscribers w !! UUID_String roomId) as [conns|] eqn:Hold;
          cbn in Hc'; [by eapply Hown | by rewrite lookup_empty in Hc'].
      * by eapply Hown.
  - destruct Hstep as (s & _ & -> & _). exact Hown.
  - destruct Hstep as (Hsubs & Hsess & _).
    intros room conns c' f. rewrite Hsubs, Hsess. apply Hown.
  - destruct Hstep as [_ Hres].
    pose proof (notifyClients_world w msg order) as (Hsubs & Hsess & _).
    cbn zeta in Hsubs, Hsess. rewrite Hres in Hsubs, Hsess. cbn in Hsubs, Hsess.
    intros room conns c' f. rewrite Hsubs, Hsess. apply Hown.
  - destruct Hstep as (s & Hs & Hopen & _ & [= <- _]).
    intros room conns c' f. cbn. rewrite unsubscribe_lookup. intros Hroom Hc'.
    assert (∃ conns0, subscribers w !! room = Some conns0 ∧ conns0 !! c' = Some f
                      ∧ (c' = c → room ≠ UUID_String (s_room s))) as (conns0 & Hr0 & Hc0 & Hnot).
    { destruct (decide (room = UUID_String (s_room s))) as [->|Hnr].
      - destruct (subscribers w !! _) as [conns0|]; [|done].
        injection Hroom as <-. exists conns0. split; [done|].
        destruct (decide (c' = c)) as [->|Hne].
        + by rewrite lookup_delete_eq in Hc'.
        + rewrite lookup_delete_ne in Hc' by done. done.
      - eauto. }
    destruct (Hown _ _ _ _ Hr0 Hc0) as (s' & Hs' & Hop' & Hrm' & Hctx').
    destruct (decide (c' = c)) as [->|Hne].
    + exfalso. apply Hnot; [done|]. congruence.
    + rewrite lookup_insert_ne by done. eauto.
Qed.

(** A closed session has no entry left in a well-formed registry. *)
Lemma closed_absent w c s :
  registry_owned w → sessions w !! c = Some s → s_closed s = true →
  absent_everywhere c w.
Proof.
  intros Hown Hs Hclosed room conns Hroom.
  destruct (conns !! c) as [f|] eqn:Hc; [|done].
  destruct (Hown _ _ _ _ Hroom Hc) as (s' & Hs' & Hopen & _). congruence.
Qed.

(** No step writes to a connection that has no entry. *)
Lemma step_absent w l w' tr c :
  step w l = Some (w', tr) → absent_everywhere c w → sent_to c tr = [].
Proof.
  intros Hstep Habs. apply step_cases in Hstep.
  destruct l as [d r ctx|c'|c'|msg order|c'].
  - destruct Hstep as [Hres _]. pose proof (register_inv d r ctx w) as (Hsent & _).
    cbn zeta in Hsent. rewrite Hres in Hsent. apply Hsent.
  - by destruct Hstep as (s & _ & _ & ->).
  - by destruct Hstep as (_ & _ & _ & ->).
  - destruct Hstep as [Horder Hres].
    pose proof (notifyClients_absent w msg order c Horder Habs) as Hsent.
    by rewrite Hres in Hsent.
  - by destruct Hstep as (s & _ & _ & _ & [= _ <-]).
Qed.

(** ** Runs of the process *)

Lemma run_cons w l ls w' tr :
  run w (l :: ls) = Some (w', tr) →
  ∃ w1 tr1 tr2, step w l = Some (w1, tr1) ∧ run w1 ls = Some (w', tr2) ∧ tr = tr1 ++ tr2.
Proof.
  cbn [run]. destruct (step w l) as [[w1 tr1]|]; [|done]. cbn [fst snd].
  destruct (run w1 ls) as [[w2 tr2]|] eqn:Hrun; [|done]. cbn [fst snd].
  intros [= <- <-]. by exists w1, tr1, tr2.
Qed.

Lemma run_keys w ls w' tr room :
  run w ls = Some (w', tr) →
  is_Some (subscribers w !! room) → is_Some (subscribers w' !! room).
Proof.
  revert w tr. induction ls as [|l ls IH]; intros w tr Hrun Hroom.
  - by injection Hrun as <- <-.
  - apply run_cons in Hrun as (w1 & tr1 & tr2 & Hstep & Hrun & ->).
    eapply IH; [done|]. by eapply step_keys.
Qed.

Lemma run_owned w ls w' tr :
  run w ls = Some (w', tr) → registry_owned w → registry_owned w'.
Proof.
  revert w tr. induction ls as [|l ls IH]; intros w tr Hrun Hown.
  - by injection Hrun as <- <-.
  - apply run_cons in Hrun as (w1 & tr1 & tr2 & Hstep & Hrun & ->).
    eapply IH; [done|]. by eapply step_owned.
Qed.

Lemma run_cancelled w ls w' tr :
  run w ls = Some (w', tr) → cancelled w ⊆ cancelled w'.
Proof.
  revert w tr. induction ls as [|l ls IH]; intros w tr Hrun.
  - by injection Hrun as <- <-.
  - apply run_cons in Hrun as (w1 & tr1 & tr2 & Hstep & Hrun & ->).
    etrans; [by eapply step_cancelled | by eapply IH].
Qed.

Lemma NewHandler_owned : registry_owned NewHandler.
Proof. intros room conns c f Hroom. done. Qed.

(** Along a run the entry of a session is deleted once if the session has
    returned by the end, and not at all otherwise. *)
Lemma run_session w ls w' tr c s :
  run w ls = Some (w', tr) →
  sessions w !! c = Some s →
  ∃ s', sessions w' !! c = Some s' ∧ same_session s s' ∧
        unsubscribes (UUID_String (s_room s)) c tr + (if s_closed s then 1 else 0)
        = (if s_closed s' then 1 else 0).
Proof.
  revert w tr s. induction ls as [|l ls IH]; intros w tr s Hrun Hs.
  - injection Hrun as <- <-. exists s. done.
  - apply run_cons in Hrun as (w1 & tr1 & tr2 & Hstep & Hrun & ->).
    destruct (step_session _ _ _ _ _ _ Hstep Hs) as (s1 & Hs1 & (Hr1 & Hq1 & Hc1) & Hn1).
    destruct (IH _ _ _ Hrun Hs1) as (s' & Hs' & (Hr' & Hq' & Hc') & Hn').
    exists s'. split; [done|]. split; [unfold same_session; by rewrite Hr', Hq', Hc'|].
    rewrite unsubscribes_app. rewrite Hr1 in Hn'. lia.
Qed.

(** Once a session has returned, no run writes to its connection again. *)
Lemma run_absent w ls w' tr c s :
  run w ls = Some (w', tr) → registry_owned w →
  sessions w !! c = Some s → s_closed s = true →
  sent_to c tr = [] ∧ absent_everywhere c w'.
Proof.
  revert w tr s. induction ls as [|l ls IH]; intros w tr s Hrun Hown Hs Hclosed.
  - injection Hrun as <- <-. split; [done|]. by eapply closed_absent.
  - apply run_cons in Hrun as (w1 & tr1 & tr2 & Hstep & Hrun & ->).
    destruct (step_session _ _ _ _ _ _ Hstep Hs) as (s1 & Hs1 & _ & Hn1).
    rewrite Hclosed in Hn1.
    assert (s_closed s1 = true) as Hclosed1 by (destruct (s_closed s1); [done|lia]).
    destruct (IH _ _ _ Hrun (step_owned _ _ _ _ Hstep Hown) Hs1 Hclosed1) as [Hsent Habs].
    split; [|done]. rewrite sent_to_app, Hsent.
    rewrite (step_absent _ _ _ _ c Hstep); [done|]. by eapply closed_absent.
Qed.

Lemma step_failed_write w l w' tr c s v :
  step w l = Some (w', tr) → registry_owned w → sessions w !! c = Some s →
  (v, false) ∈ sent_to c tr → s_ctx s ∈ cancelled w'.
Proof.
  intros Hstep Hown Hs Hv. apply step_cases in Hstep.
  destruct l as [d r ctx|c'|c'|msg order|c'].
  - destruct Hstep as [Hres _]. pose proof (register_inv d r ctx w) as (Hsent & _).
    cbn zeta in Hsent. rewrite Hres in Hsent. cbn [fst snd] in Hsent.
    rewrite Hsent in Hv. by apply elem_of_nil in Hv.
  - destruct Hstep as (s0 & _ & _ & ->). by apply elem_of_nil in Hv.
  - destruct Hstep as (_ & _ & _ & ->). by apply elem_of_nil in Hv.
  - destruct Hstep as [Horder Hres].
    pose proof (notifyClients_failed_write w msg order c s v Hown Horder Hs) as Hcan.
    rewrite Hres in Hcan. by apply Hcan.
  - destruct Hstep as (s0 & _ & _ & _ & [= _ <-]). by apply elem_of_nil in Hv.
Qed.

(** Either trigger leaves the context of the session done. *)
Lemma run_triggered w ls w' tr c s :
  run w ls = Some (w', tr) → registry_owned w → sessions w !! c = Some s →
  LRequestDone c ∈ ls ∨ (∃ v, (v, false) ∈ sent_to c tr) →
  ctx_done w' s.
Proof.
  revert w tr s. induction ls as [|l ls IH]; intros w tr s Hrun Hown Hs Htrig.
  - injection Hrun as <- <-. destruct Htrig as [Hin|[v Hv]]; by apply elem_of_nil in Hin || apply elem_of_nil in Hv.
  - apply run_cons in Hrun as (w1 & tr1 & tr2 & Hstep & Hrun & ->).
    destruct (step_session _ _ _ _ _ _ Hstep Hs) as (s1 & Hs1 & (Hr1 & Hq1 & Hc1) & _).
    pose proof (step_owned _ _ _ _ Hstep Hown) as Hown1.
    pose proof (run_cancelled _ _ _ _ Hrun) as Hmono.
    assert (ctx_done w1 s ∨ (LRequestDone c ∈ ls ∨ ∃ v, (v, false) ∈ sent_to c tr2))
      as [[Hd|Hd]|Hlater].
    { destruct Htrig as [Hin|[v Hv]].
      - apply elem_of_cons in Hin as [<-|Hin]; [|by right; left].
        left. right. apply step_cases in Hstep as (s0 & Hs0 & -> & _).
        rewrite Hs in Hs0. injection Hs0 as <-. cbn. set_solver.
      - rewrite sent_to_app in Hv. apply elem_of_app in Hv as [Hv|Hv]; [|right; right; eauto].
        left. left. by eapply step_failed_write. }
    + left. by apply Hmono.
    + right. by apply Hmono.
    + specialize (IH _ _ _ Hrun Hown1 Hs1 Hlater). unfold ctx_done in *.
      by rewrite Hq1, Hc1 in IH.
Qed.

(** ** Room keys are never removed *)

(** C9: once a connection has subscribed to a room, the key of that room
    stays in [h.subscribers] along every run of the process; the cleanup of
    a session deletes the connection from the inner map of its room and
    leaves every other key as it is, the inner map itself staying under its
    key even when it becomes empty; and a broadcast to a room whose inner
    map is empty returns at the emptiness check, doing nothing. *)
Theorem room_key_retained w d r ctx c w1 tr1 ls w2 tr2 :
  step w (LSubscribe d r ctx) = Some (w1, tr1) →
  (handleSubscribeToRoom_register d r ctx w).2 = Some c →
  run w1 ls = Some (w2, tr2) →
  ∃ s, sessions w1 !! c = Some s ∧
    let room := UUID_String (s_room s) in
    is_Some (subscribers w1 !! room ≫= (.!! c)) ∧
    is_Some (subscribers w2 !! room) ∧
    (∀ c' s' room',
       subscribers (handleSubscribeToRoom_cleanup c' s' w2).1 !! room'
       = if decide (room' = UUID_String (s_room s'))
         then delete c' <$> subscribers w2 !! room'
         else subscribers w2 !! room') ∧
    (∀ msg order, RoomID msg = room → subscribers w2 !! room = Some ∅ →
       notifyClients w2 msg order = (w2, [])).
Proof.
  intros Hstep Hreg Hrun.
  apply step_cases in Hstep as [Hres _].
  pose proof (register_inv d r ctx w) as (_ & _ & Hw).
  cbn zeta in Hw. rewrite Hres, Hreg in Hw. cbn [fst snd] in Hw.
  destruct Hw as (roomId & Hsubs & _ & _ & Hsess).
  eexists. split; [by rewrite Hsess, lookup_insert_eq|]. cbn.
  assert (subscribers w1 !! UUID_String roomId
          = Some (<[c := ctx]> (default ∅ (subscribers w !! UUID_String roomId)))) as Hroom.
  { rewrite Hsubs, subscribe_lookup. by rewrite decide_True. }
  split; [|split; [|split]].
  - rewrite Hroom. cbn. rewrite lookup_insert_eq. eauto.
  - eapply run_keys; [done|]. rewrite Hroom. eauto.
  - intros c' s' room'. cbn. apply unsubscribe_lookup.
  - intros msg order Hmsg Hempty. apply notify_no_subscribers_aux; by rewrite Hmsg.
Qed.

Lemma room_key_retained_witness :
  ∃ s, sessions world_R1 !! 1%positive = Some s ∧
       is_Some (subscribers world_R1_closed !! UUID_String (s_room s)) ∧
       notifyClients world_R1_closed message_m1 [] = (world_R1_closed, []).
Proof.
  assert (step NewHandler (LSubscribe deps_ok request_R 11%positive)
          = Some (world_R1,
                  [QGetRoom (mkUUID "R"); UpgraderUpgrade true;
                   SubscribersInsert "R" 1%positive;
                   SlogInfo "new subscriber connected"])) as Hstep
    by (vm_compute; reflexivity).
  assert (run world_R1 [LRequestDone 1%positive; LResume 1%positive]
          = Some (world_R1_closed, [SubscribersDelete "R" 1%positive; ConnClose 1%positive]))
    as Hrun by (vm_compute; reflexivity).
  destruct (room_key_retained NewHandler deps_ok request_R 11%positive 1%positive
              _ _ _ _ _ Hstep eq_refl Hrun) as (s & Hs & _ & Hkey & _ & Hnotify).
  exists s. split; [exact Hs|]. split; [exact Hkey|].
  apply Hnotify.
  - vm_compute in Hs. injection Hs as <-. reflexivity.
  - vm_compute in Hs. injection Hs as <-. reflexivity.
Defined.

(** ** Termination of a session *)

(** C5: take a session that is registered in a reachable state, and any run
    from there.  Its entry is deleted exactly once if the session has
    returned by the end of the run and not at all before; as long as it has
    not returned, either trigger (the cancellation of the request context,
    or a failed write of a broadcast, which invokes its cancel function)
    leaves its cleanup ready to run, and that cleanup is one deletion of
    the (room, connection) entry followed by the close; once the session
    has returned, its connection has no entry in any room, and no later run
    writes to it or deletes its entry again. *)
Theorem session_unsubscribes_once ls0 w c s ls w1 tr1 :
  fst <$> run NewHandler ls0 = Some w →
  sessions w !! c = Some s →
  s_closed s = false →
  run w ls = Some (w1, tr1) →
  let room := UUID_String (s_room s) in
  ∃ s1, sessions w1 !! c = Some s1 ∧ same_session s s1 ∧
    unsubscribes room c tr1 = (if s_closed s1 then 1 else 0) ∧
    (s_closed s1 = false →
       LRequestDone c ∈ ls ∨ (∃ v, (v, false) ∈ sent_to c tr1) →
       ∃ w2, step w1 (LResume c) = Some (w2, [SubscribersDelete room c; ConnClose c]) ∧
             absent_everywhere c w2) ∧
    (s_closed s1 = true →
       absent_everywhere c w1 ∧
       ∀ ls2 w2 tr2, run w1 ls2 = Some (w2, tr2) →
         sent_to c tr2 = [] ∧ unsubscribes room c tr2 = 0 ∧ absent_everywhere c w2).
Proof.
  intros Hreach Hs Hopen Hrun room.
  destruct (run NewHandler ls0) as [[w0 tr0]|] eqn:Hrun0; [|done].
  injection Hreach as ->.
  pose proof (run_owned _ _ _ _ Hrun0 NewHandler_owned) as Hown.
  pose proof (run_owned _ _ _ _ Hrun Hown) as Hown1.
  destruct (run_session _ _ _ _ _ _ Hrun Hs) as (s1 & Hs1 & Hsame & Hcount).
  rewrite Hopen in Hcount. exists s1. split; [done|]. split; [done|].
  split; [fold room in Hcount; lia|]. destruct Hsame as (Hr1 & Hq1 & Hc1). split.
  - intros Hopen1 Htrig.
    pose proof (run_triggered _ _ _ _ _ _ Hrun Hown Hs Htrig) as Hdone.
    assert (ctx_done w1 s1) as Hdone1 by (unfold ctx_done in *; by rewrite Hq1, Hc1).
    assert (step w1 (LResume c) = Some (handleSubscribeToRoom_cleanup c s1 w1)) as Hstep.
    { cbn. rewrite Hs1, Hopen1. cbn. by rewrite bool_decide_true. }
    destruct (handleSubscribeToRoom_cleanup c s1 w1) as [w2 tr2] eqn:Hclean.
    pose proof (step_owned _ _ _ _ Hstep Hown1) as Hown2.
    unfold handleSubscribeToRoom_cleanup in Hclean. injection Hclean as <- <-.
    assert (UUID_String (s_room s1) = room) as Hroom by (unfold room; by rewrite Hr1).
    rewrite Hroom in Hstep, Hown2.
    eexists. split; [exact Hstep|].
    eapply closed_absent; [exact Hown2 | apply lookup_insert_eq | done].
  - intros Hclosed1. split; [by eapply closed_absent|].
    intros ls2 w2 tr2 Hrun2.
    destruct (run_absent _ _ _ _ _ _ Hrun2 Hown1 Hs1 Hclosed1) as [Hsent Habs].
    destruct (run_session _ _ _ _ _ _ Hrun2 Hs1) as (s2 & _ & _ & Hcount2).
    rewrite Hclosed1, Hr1 in Hcount2. fold room in Hcount2.
    repeat split; [done | | done]. destruct (s_closed s2); lia.
Qed.

Lemma session_unsubscribes_once_witness :
  (unsubscribes "R" 1%positive trace_drop_1 = 1 ∧
   absent_everywhere 1%positive world_R12_dropped) ∧
  ∃ w2, step world_R12_cancelled (LResume 1%positive)
        = Some (w2, [SubscribersDelete "R" 1%positive; ConnClose 1%positive]) ∧
        absent_everywhere 1%positive w2.
Proof.
  split.
  - assert (run world_R12 schedule_drop_1 = Some (world_R12_dropped, trace_drop_1)) as Hrun
      by (vm_compute; reflexivity).
    destruct (session_unsubscribes_once schedule_R12 world_R12 1%positive
                {| s_room := mkUUID "R"; s_request_ctx := 10%positive;
                   s_ctx := 11%positive; s_closed := false |}
                schedule_drop_1 world_R12_dropped trace_drop_1
                world_R12_reached eq_refl eq_refl Hrun)
      as (s1 & Hs1 & _ & Hcount & _ & Hafter).
    vm_compute in Hs1. injection Hs1 as <-.
    split; [exact Hcount | exact (proj1 (Hafter eq_refl))].
  - assert (run world_R12 (take 1 schedule_drop_1)
            = Some (world_R12_cancelled, take 4 trace_drop_1)) as Hrun
      by (vm_compute; reflexivity).
    destruct (session_unsubscribes_once schedule_R12 world_R12 1%positive
                {| s_room := mkUUID "R"; s_request_ctx := 10%positive;
                   s_ctx := 11%positive; s_closed := false |}
                (take 1 schedule_drop_1) world_R12_cancelled (take 4 trace_drop_1)
                world_R12_reached eq_refl eq_refl Hrun)
      as (s1 & Hs1 & _ & _ & Hready & _).
    vm_compute in Hs1. injection Hs1 as <-.
    apply (Hready eq_refl). right. exists (marshal_Message message_m1).
    cbn. left.
Defined.

(** * Further properties of the registry *)

Lemma World_eq (w1 w2 : World) :
  subscribers w1 = subscribers w2 → cancelled w1 = cancelled w2 →
  contexts w1 = contexts w2 → broken w1 = broken w2 → sessions w1 = sessions w2 →
  w1 = w2.
Proof. destruct w1, w2; cbn. by intros -> -> -> -> ->. Qed.

(** The trace of the loop is the concatenation of the events of its
    iterations, each decided by the transports alone. *)
Lemma range_subscribers_trace msg order w :
  (range_subscribers msg order w).2 = order ≫= iteration_events msg (broken w).
Proof.
  revert w. induction order as [|[c f] order IH]; intros w; [done|].
  rewrite bind_cons. cbn [range_subscribers]. unfold iteration_events at 1, WriteJSON_ok.
  cbn [fst snd]. case_bool_decide; cbn [fst snd app]; f_equal.
  - apply IH.
  - do 2 f_equal. exact (IH (call_cancel f w)).
Qed.

Lemma range_subscribers_perm msg o1 o2 w :
  o1 ≡ₚ o2 →
  (range_subscribers msg o1 w).1 = (range_subscribers msg o2 w).1 ∧
  (range_subscribers msg o1 w).2 ≡ₚ (range_subscribers msg o2 w).2.
Proof.
  intros Hperm. split.
  - destruct (range_subscribers_world msg o1 w) as (Hs1 & Hse1 & Hb1 & Hc1 & Hcan1).
    destruct (range_subscribers_world msg o2 w) as (Hs2 & Hse2 & Hb2 & Hc2 & Hcan2).
    apply World_eq; try congruence.
    rewrite Hcan1, Hcan2, !range_subscribers_cancels. by rewrite Hperm.
  - rewrite !range_subscribers_trace. by rewrite Hperm.
Qed.

(** X2: the outcome of a broadcast does not depend on the order in which the
    runtime enumerates the map: any two admissible enumerations lead to the
    same state, and to the same events up to their order. *)
Theorem notify_order_irrelevant w msg o1 o2 :
  range_order w msg o1 → range_order w msg o2 →
  (notifyClients w msg o1).1 = (notifyClients w msg o2).1 ∧
  (notifyClients w msg o1).2 ≡ₚ (notifyClients w msg o2).2.
Proof.
  unfold range_order. intros H1 H2. unfold notifyClients.
  destruct (subscribers w !! RoomID msg) as [conns|]; [|done].
  destruct (decide (size conns = 0)); [done|].
  apply range_subscribers_perm. by rewrite H1, H2.
Qed.

Lemma notify_order_irrelevant_witness :
  (notifyClients world_R12 message_m1 [(1%positive, 11%positive); (2%positive, 12%positive)]).1
  = (notifyClients world_R12 message_m1 [(2%positive, 12%positive); (1%positive, 11%positive)]).1.
Proof.
  apply (notify_order_irrelevant world_R12 message_m1).
  - unfold range_order. vm_compute. apply perm_swap.
  - unfold range_order. vm_compute. reflexivity.
Defined.

(** X1: whatever the number of failing connections, a broadcast writes the
    marshalled message exactly once to every connection of the room, the
    write succeeding exactly on the healthy transports; it invokes the
    cancel functions of the failing connections and no others, one call
    per failing connection; and it adds nothing to the state but these
    cancellations: [h.subscribers] and the sessions are as before. *)
Theorem notify_fan_out w msg order conns :
  subscribers w !! RoomID msg = Some conns →
  range_order w msg order →
  let res := notifyClients w msg order in
  (∀ c f, conns !! c = Some f →
     sent_to c res.2 = [(marshal_Message msg, WriteJSON_ok w c)]) ∧
  (∀ c, c ∈ delivered res.2 ↔ is_Some (conns !! c) ∧ c ∉ broken w) ∧
  (∀ f, f ∈ cancels res.2 ↔ ∃ c, conns !! c = Some f ∧ c ∈ broken w) ∧
  length (delivered res.2) + length (cancels res.2) = size conns ∧
  subscribers res.1 = subscribers w ∧ sessions res.1 = sessions w ∧
  cancelled res.1 = list_to_set (cancels res.2) ∪ cancelled w.
Proof.
  intros Hroom Horder.
  destruct (range_order_spec w msg order conns Hroom Horder) as (Hnd & Hlen & Hin).
  cbn zeta. unfold notifyClients. rewrite Hroom.
  destruct (decide (size conns = 0)) as [Hz|Hnz].
  { apply map_size_empty_inv in Hz as ->. cbn.
    split; [|split; [|split; [|split; [|split; [|split]]]]]; try done.
    - intros c. split; [intros Hc; by apply elem_of_nil in Hc|].
      intros [[f Hf] _]. by rewrite lookup_empty in Hf.
    - intros f. split; [intros Hf; by apply elem_of_nil in Hf|].
      intros (c & Hc & _). by rewrite lookup_empty in Hc.
    - set_solver. }
  destruct (range_subscribers_world msg order w) as (Hsubs & Hsess & _ & _ & Hcan).
  rewrite range_subscribers_cancels, range_subscribers_delivered in *.
  split; [|split; [|split; [|split]]].
  - intros c f Hf. rewrite range_subscribers_sent.
    by rewrite (filter_key_NoDup order c f Hnd) by (by apply Hin).
  - intros c. rewrite list_elem_of_fmap. split.
    + intros ([c' f] & Heq & Hcf). cbn in Heq. subst c'.
      apply list_elem_of_filter in Hcf as [Hok Hcf].
      split; [|done]. exists f. by apply Hin.
    + intros [[f Hf] Hok]. exists (c, f). split; [done|].
      apply list_elem_of_filter. split; [done|]. by apply Hin.
  - intros f. rewrite list_elem_of_fmap. split.
    + intros ([c f'] & Heq & Hcf). cbn in Heq. subst f'.
      apply list_elem_of_filter in Hcf as [Hb Hcf].
      exists c. split; [by apply Hin | done].
    + intros (c & Hf & Hb). exists (c, f). split; [done|].
      apply list_elem_of_filter. split; [done|]. by apply Hin.
  - rewrite !length_fmap.
    pose proof (length_filter_complement (λ s, s.1 ∈ broken w) order). lia.
  - done.
Qed.

Lemma notify_fan_out_witness :
  let res := notifyClients world_R12 message_m1
               [(2%positive, 12%positive); (1%positive, 11%positive)] in
  sent_to 1%positive res.2 = [(marshal_Message message_m1, false)] ∧
  length (delivered res.2) + length (cancels res.2) = 2.
Proof.
  assert (range_order world_R12 message_m1
            [(2%positive, 12%positive); (1%positive, 11%positive)]) as Horder.
  { unfold range_order. vm_compute. reflexivity. }
  destruct (notify_fan_out world_R12 message_m1 _
              {[1%positive := 11%positive; 2%positive := 12%positive]} eq_refl Horder)
    as (Hsent & _ & _ & Hlen & _).
  split; [exact (Hsent 1%positive 11%positive eq_refl) | exact Hlen].
Defined.

Lemma cancels_set_perm (b : gset positive) (o1 o2 : list (positive * positive)) :
  o1 ≡ₚ o2 →
  list_to_set (C := gset positive) (filter (λ s, s.1 ∈ b) o1).*2
  = list_to_set (filter (λ s, s.1 ∈ b) o2).*2.
Proof. intros Hperm. by rewrite Hperm. Qed.

(** X3: a broadcast repeated for the same room before any session has
    cleaned up performs the same writes as it would have performed the first
    time, to the failing connections as well, and leaves the state as the
    first broadcast left it: invoking a cancel function again changes
    nothing. *)
Theorem notify_again_no_change w msg1 o1 msg2 o2 :
  RoomID msg2 = RoomID msg1 →
  range_order w msg1 o1 → range_order w msg2 o2 →
  let w1 := (notifyClients w msg1 o1).1 in
  (notifyClients w1 msg2 o2).1 = w1 ∧
  (notifyClients w1 msg2 o2).2 = (notifyClients w msg2 o2).2.
Proof.
  unfold range_order. intros Hmsg H1 H2. rewrite Hmsg in H2.
  assert (o2 ≡ₚ o1) as Hperm by (by rewrite H1, H2). clear H1 H2.
  cbn zeta. unfold notifyClients. rewrite Hmsg.
  destruct (subscribers w !! RoomID msg1) as [conns|] eqn:Hroom; cbn [fst snd];
    [|by rewrite Hroom].
  destruct (decide (size conns = 0)) as [Hz|Hnz]; cbn [fst snd].
  { rewrite Hroom. by rewrite decide_True. }
  destruct (range_subscribers_world msg1 o1 w) as (Hs1 & Hse1 & Hb1 & Hc1 & Hcan1).
  rewrite Hs1, Hroom, decide_False by done.
  destruct (range_subscribers_world msg2 o2 (range_subscribers msg1 o1 w).1)
    as (Hs2 & Hse2 & Hb2 & Hc2 & Hcan2).
  split.
  - apply World_eq; try done.
    rewrite Hcan2, Hcan1, !range_subscribers_cancels, Hb1.
    rewrite (cancels_set_perm (broken w) o2 o1 Hperm).
    set (A := list_to_set _). clearbody A. set_solver.
  - by rewrite !range_subscribers_trace, Hb1.
Qed.

Lemma notify_again_no_change_witness :
  let order := [(2%positive, 12%positive); (1%positive, 11%positive)] in
  (notifyClients (notifyClients world_R12 message_m1 order).1 message_m1 order).1
  = (notifyClients world_R12 message_m1 order).1.
Proof.
  assert (range_order world_R12 message_m1
            [(2%positive, 12%positive); (1%positive, 11%positive)]) as Horder.
  { unfold range_order. vm_compute. reflexivity. }
  exact (proj1 (notify_again_no_change world_R12 message_m1 _ message_m1 _
                  eq_refl Horder Horder)).
Defined.

(** X4: registering a connection that has no entry and deleting it again
    gives back the registry exactly when the room already had a key; for a
    room without a key the pair of operations leaves an empty inner map
    behind under that key. *)
Theorem subscribe_unsubscribe_round_trip room c cancel
    (subs : gmap string (gmap Conn CancelFunc)) :
  subs !! room ≫= (.!! c) = None →
  unsubscribe room c (subscribe room c cancel subs)
  = <[room := default ∅ (subs !! room)]> subs ∧
  (is_Some (subs !! room) → unsubscribe room c (subscribe room c cancel subs) = subs) ∧
  (subs !! room = None →
     unsubscribe room c (subscribe room c cancel subs) !! room = Some ∅ ∧
     unsubscribe room c (subscribe room c cancel subs) ≠ subs).
Proof.
  intros Hfresh.
  assert (unsubscribe room c (subscribe room c cancel subs)
          = <[room := default ∅ (subs !! room)]> subs) as Heq.
  { rewrite subscribe_insert. unfold unsubscribe. rewrite lookup_insert_eq.
    rewrite insert_insert_eq, delete_insert_eq. f_equal. apply delete_id.
    destruct (subs !! room) as [conns|]; cbn in *; [done | apply lookup_empty]. }
  rewrite Heq. split; [done|]. split.
  - intros [conns Hroom]. rewrite Hroom. cbn. by apply insert_id.
  - intros Hroom. rewrite Hroom. cbn. rewrite lookup_insert_eq. split; [done|].
    intros Hsame. rewrite <- Hsame, lookup_insert_eq in Hroom. done.
Qed.

Lemma subscribe_unsubscribe_round_trip_witness :
  unsubscribe "R" 7%positive (subscribe "R" 7%positive 3%positive ∅) !! "R" = Some ∅ ∧
  unsubscribe "R" 2%positive
    (subscribe "R" 2%positive 12%positive {["R" := {[1%positive := 11%positive]}]})
  = {["R" := {[1%positive := 11%positive]}]}.
Proof.
  split.
  - destruct (subscribe_unsubscribe_round_trip "R" 7%positive 3%positive ∅)
      as (_ & _ & Hnew); [by vm_compute|].
    apply Hnew. by vm_compute.
  - destruct (subscribe_unsubscribe_round_trip "R" 2%positive 12%positive
                {["R" := {[1%positive := 11%positive]}]}) as (_ & Hold & _);
      [by vm_compute|].
    apply Hold. exists {[1%positive := 11%positive]}. by vm_compute.
Defined.

(** X8: the critical sections of two sessions with distinct (room,
    connection) pairs commute: whichever of them takes [h.mu] first,
    two registrations, a registration and a deletion, or two deletions
    leave the same registry. *)
Theorem registry_operations_commute room1 c1 cancel1 room2 c2 cancel2
    (subs : gmap string (gmap Conn CancelFunc)) :
  distinct_entries room1 c1 room2 c2 →
  subscribe room1 c1 cancel1 (subscribe room2 c2 cancel2 subs)
  = subscribe room2 c2 cancel2 (subscribe room1 c1 cancel1 subs) ∧
  unsubscribe room1 c1 (subscribe room2 c2 cancel2 subs)
  = subscribe room2 c2 cancel2 (unsubscribe room1 c1 subs) ∧
  unsubscribe room1 c1 (unsubscribe room2 c2 subs)
  = unsubscribe room2 c2 (unsubscribe room1 c1 subs).
Proof.
  intros Hdistinct. split; [|split]; apply map_eq; intros room.
  - rewrite !subscribe_lookup.
    destruct (decide (room = room1)) as [Heq1|Hn1], (decide (room = room2)) as [Heq2|Hn2];
      try done.
    + subst room1 room2. rewrite !decide_True by done. cbn.
      destruct Hdistinct as [Hr|Hc]; [done|]. f_equal. by apply insert_insert_ne.
    + subst room1. by rewrite decide_False by done.
    + subst room2. by rewrite decide_False by done.
  - rewrite unsubscribe_lookup, !subscribe_lookup, !unsubscribe_lookup.
    destruct (decide (room = room1)) as [Heq1|Hn1], (decide (room = room2)) as [Heq2|Hn2];
      try done.
    + subst room1 room2. rewrite decide_True by done. cbn.
      destruct Hdistinct as [Hr|Hc]; [done|]. f_equal.
      destruct (subs !! room) as [conns|]; cbn.
      * by apply delete_insert_ne.
      * rewrite delete_insert_ne by done. by rewrite delete_empty.
    + subst room2. by rewrite decide_False by done.
  - rewrite !unsubscribe_lookup.
    destruct (decide (room = room1)) as [Heq1|Hn1], (decide (room = room2)) as [Heq2|Hn2];
      try done.
    destruct (subs !! room) as [conns|]; [|done]. cbn. f_equal. apply delete_delete.
Qed.

Lemma registry_operations_commute_witness :
  subscribe "R" 1%positive 11%positive (subscribe "R" 2%positive 12%positive ∅)
  = subscribe "R" 2%positive 12%positive (subscribe "R" 1%positive 11%positive ∅).
Proof.
  apply (registry_operations_commute "R" 1%positive 11%positive "R" 2%positive 12%positive ∅).
  right. discriminate.
Defined.

(** ** The registry in the reachable states *)

Lemma step_registered w l w' tr :
  step w l = Some (w', tr) → sessions_registered w → sessions_registered w'.
Proof.
  intros Hstep Hreg. apply step_cases in Hstep.
  destruct l as [d r ctx|c|c|msg order|c].
  - destruct Hstep as [Hres Hfresh].
    pose proof (register_inv d r ctx w) as (_ & _ & Hw).
    cbn zeta in Hw. rewrite Hres in Hw. cbn [fst snd] in Hw.
    destruct (handleSubscribeToRoom_register d r ctx w).2 as [c|]; [|by subst w'].
    destruct Hw as (roomId & Hsubs & _ & _ & Hsess).
    intros c0 s0. rewrite Hsess, Hsubs, subscribe_lookup.
    destruct (decide (c0 = c)) as [->|Hne].
    + rewrite lookup_insert_eq. intros [= <-] _. cbn. rewrite decide_True by done.
      eexists. split; [done|]. apply lookup_insert_eq.
    + rewrite lookup_insert_ne by done. intros Hs0 Hopen.
      destruct (Hreg _ _ Hs0 Hopen) as (conns & Hroom & Hc0).
      destruct (decide (UUID_String (s_room s0) = UUID_String roomId)) as [Heq|Hnr].
      * eexists. split; [done|]. rewrite <- Heq, Hroom. cbn.
        by rewrite lookup_insert_ne.
      * eauto.
  - destruct Hstep as (s & _ & -> & _). exact Hreg.
  - destruct Hstep as (Hsubs & Hsess & _).
    intros c0 s0. rewrite Hsubs, Hsess. apply Hreg.
  - destruct Hstep as [_ Hres].
    pose proof (notifyClients_world w msg order) as (Hsubs & Hsess & _).
    cbn zeta in Hsubs, Hsess. rewrite Hres in Hsubs, Hsess. cbn [fst snd] in Hsubs, Hsess.
    intros c0 s0. rewrite Hsubs, Hsess. apply Hreg.
  - destruct Hstep as (s & Hs & Hopen & _ & [= <- _]).
    intros c0 s0. cbn. rewrite unsubscribe_lookup.
    destruct (decide (c0 = c)) as [->|Hne].
    + rewrite lookup_insert_eq. by intros [= <-].
    + rewrite lookup_insert_ne by done. intros Hs0 Hopen0.
      destruct (Hreg _ _ Hs0 Hopen0) as (conns & Hroom & Hc0).
      destruct (decide (UUID_String (s_room s0) = UUID_String (s_room s))) as [Heq|Hnr].
      * rewrite Hroom. cbn. eexists. split; [done|]. by rewrite lookup_delete_ne.
      * eauto.
Qed.

Lemma run_registered w ls w' tr :
  run w ls = Some (w', tr) → sessions_registered w → sessions_registered w'.
Proof.
  revert w tr. induction ls as [|l ls IH]; intros w tr Hrun Hreg.
  - by injection Hrun as <- <-.
  - apply run_cons in Hrun as (w1 & tr1 & tr2 & Hstep & Hrun & ->).
    eapply IH; [done|]. by eapply step_registered.
Qed.

Lemma reachable_invariants ls w :
  fst <$> run NewHandler ls = Some w → registry_owned w ∧ sessions_registered w.
Proof.
  intros Hreach. destruct (run NewHandler ls) as [[w0 tr0]|] eqn:Hrun; [|done].
  injection Hreach as ->. split.
  - by eapply run_owned; [|apply NewHandler_owned].
  - eapply run_registered; [done|]. intros c s Hs. done.
Qed.

(** X5: in every state the process can reach, the entries of
    [h.subscribers] are exactly the sessions that have not returned: a
    (room, connection) pair is registered if and only if the connection
    belongs to an open session of that room; hence a connection is
    registered in at most one room, and the cancel function stored with it
    is the one of its own session. *)
Theorem reachable_registry ls w :
  fst <$> run NewHandler ls = Some w →
  (∀ room c, (room, c) ∈ members (subscribers w) ↔
     ∃ s, sessions w !! c = Some s ∧ s_closed s = false ∧ UUID_String (s_room s) = room) ∧
  (∀ room1 room2 c, (room1, c) ∈ members (subscribers w) →
     (room2, c) ∈ members (subscribers w) → room1 = room2) ∧
  (∀ room conns c f s, subscribers w !! room = Some conns → conns !! c = Some f →
     sessions w !! c = Some s → f = s_ctx s).
Proof.
  intros Hreach. destruct (reachable_invariants ls w Hreach) as [Hown Hreg].
  split; [|split].
  - intros room c. rewrite elem_of_members. split.
    + intros (conns & Hroom & [f Hf]).
      destruct (Hown _ _ _ _ Hroom Hf) as (s & Hs & Hopen & Hr & _). eauto.
    + intros (s & Hs & Hopen & <-).
      destruct (Hreg _ _ Hs Hopen) as (conns & Hroom & Hc). eauto.
  - intros room1 room2 c H1 H2. apply elem_of_members in H1 as (conns1 & Hr1 & [f1 Hf1]).
    apply elem_of_members in H2 as (conns2 & Hr2 & [f2 Hf2]).
    destruct (Hown _ _ _ _ Hr1 Hf1) as (s1 & Hs1 & _ & <- & _).
    destruct (Hown _ _ _ _ Hr2 Hf2) as (s2 & Hs2 & _ & <- & _). congruence.
  - intros room conns c f s Hroom Hf Hs.
    destruct (Hown _ _ _ _ Hroom Hf) as (s' & Hs' & _ & _ & <-). congruence.
Qed.

Lemma reachable_registry_witness :
  ("R", 2%positive) ∈ members (subscribers world_R12_dropped) ∧
  ("R", 1%positive) ∉ members (subscribers world_R12_dropped).
Proof.
  destruct (reachable_registry (schedule_R12 ++ schedule_drop_1) world_R12_dropped)
    as (Hiff & _); [vm_compute; reflexivity|].
  split.
  - apply Hiff.
    exists {| s_room := mkUUID "R"; s_request_ctx := 20%positive;
              s_ctx := 12%positive; s_closed := false |}.
    split; [by vm_compute | done].
  - intros Hin. apply Hiff in Hin as (s & Hs & Hopen & _).
    vm_compute in Hs. injection Hs as <-. discriminate Hopen.
Defined.

(** X6: in a reachable state, a broadcast for one room writes nothing to
    the connection of a session of another room. *)
Theorem notify_other_room ls w msg order c s :
  fst <$> run NewHandler ls = Some w →
  range_order w msg order →
  sessions w !! c = Some s →
  UUID_String (s_room s) ≠ RoomID msg →
  sent_to c (notifyClients w msg order).2 = [].
Proof.
  intros Hreach Horder Hs Hroom.
  destruct (reachable_invariants ls w Hreach) as [Hown _].
  unfold notifyClients.
  destruct (subscribers w !! RoomID msg) as [conns|] eqn:Hconns; [|done].
  destruct (decide (size conns = 0)); [done|].
  destruct (range_order_spec w msg order conns Hconns Horder) as (_ & _ & Hin).
  rewrite range_subscribers_sent, filter_key_absent; [done|].
  intros Hc. apply list_elem_of_fmap in Hc as ([c' f] & Heq & Hcf). cbn in Heq. subst c'.
  apply Hin in Hcf. destruct (Hown _ _ _ _ Hconns Hcf) as (s' & Hs' & _ & Hr & _).
  congruence.
Qed.

Lemma notify_other_room_witness :
  sent_to 2%positive
    (notifyClients world_R12 (message_created (mkUUID "S") (mkUUID "m1") "hi") []).2 = [].
Proof.
  apply (notify_other_room schedule_R12 world_R12 _ [] 2%positive
           {| s_room := mkUUID "R"; s_request_ctx := 20%positive;
              s_ctx := 12%positive; s_closed := false |}).
  - exact world_R12_reached.
  - unfold range_order. vm_compute. reflexivity.
  - by vm_compute.
  - discriminate.
Defined.

(** ** From a subscription to a delivered event *)

Lemma create_message_published d r roomId text messageID data :
  ParseUUIDParam d r "room_id" = Ok roomId →
  q_GetRoom d roomId = Ok tt →
  json_Decode_message d (Body r) = Ok text →
  q_InsertMessage d roomId text = Ok messageID →
  json_Marshal d (marshal_fields [(TagName "id", JString (UUID_String messageID))])
  = Ok data →
  w_Write d data = Ok tt →
  published (trace (handleCreateRoomMessage d r)) = [message_created roomId messageID text].
Proof.
  intros Hparse Hroom Hbody Hins Hmarshal Hwrite.
  unfold handleCreateRoomMessage, write_json_response.
  rewrite Hparse; cbn; rewrite Hroom; cbn; rewrite Hbody; cbn.
  rewrite Hins; cbn; rewrite Hmarshal; cbn; rewrite Hwrite. reflexivity.
Qed.

Lemma register_subscribes d r ctx w roomId c :
  ParseUUIDParam d r "room_id" = Ok roomId →
  (handleSubscribeToRoom_register d r ctx w).2 = Some c →
  subscribers (handleSubscribeToRoom_register d r ctx w).1.1
  = subscribe (UUID_String roomId) c ctx (subscribers w).
Proof.
  intros Hparse. unfold handleSubscribeToRoom_register, handleSubscribeToRoom_accept.
  rewrite Hparse. cbn.
  destruct (q_GetRoom d roomId) as [[]|e1]; cbn.
  2: { unfold respond_lookup_error. by destruct (errors_Is_ErrNoRows e1). }
  destruct (upgrader_Upgrade d r) as [c'|e2]; cbn; [|done].
  by intros [= ->].
Qed.

(** X7: a connection that has just been registered for a room receives the
    event of the next message created in that room: when a create-message
    request for the same room id succeeds, the message it publishes is
    written to that connection exactly once by the broadcast, as the
    object {"kind":"message_created","value":{"id":<id>,"message":<text>}}
    with the id the store returned and the text of the request body. *)
Theorem subscriber_receives_created_message
    w d r ctx c w1 tr1 d' r' roomId text messageID data order :
  step w (LSubscribe d r ctx) = Some (w1, tr1) →
  (handleSubscribeToRoom_register d r ctx w).2 = Some c →
  ParseUUIDParam d r "room_id" = Ok roomId →
  ParseUUIDParam d' r' "room_id" = Ok roomId →
  q_GetRoom d' roomId = Ok tt →
  json_Decode_message d' (Body r') = Ok text →
  q_InsertMessage d' roomId text = Ok messageID →
  json_Marshal d' (marshal_fields [(TagName "id", JString (UUID_String messageID))])
  = Ok data →
  w_Write d' data = Ok tt →
  ∃ msg, published (trace (handleCreateRoomMessage d' r')) = [msg] ∧
    (range_order w1 msg order →
     sent_to c (notifyClients w1 msg order).2
     = [(JObject [("kind", JString "message_created");
                  ("value", JObject [("id", JString (UUID_String messageID));
                                     ("message", JString text)])],
         WriteJSON_ok w1 c)]).
Proof.
  intros Hstep Hreg Hparse Hparse' Hroom Hbody Hins Hmarshal Hwrite.
  exists (message_created roomId messageID text). split.
  { by eapply create_message_published. }
  intros Horder. apply step_cases in Hstep as [Hres _].
  pose proof (register_subscribes d r ctx w roomId c Hparse Hreg) as Hsubs.
  rewrite Hres in Hsubs. cbn [fst] in Hsubs.
  assert (subscribers w1 !! UUID_String roomId
          = Some (<[c := ctx]> (default ∅ (subscribers w !! UUID_String roomId)))) as Hconns.
  { rewrite Hsubs, subscribe_lookup. by rewrite decide_True. }
  set (msg := message_created roomId messageID text) in *.
  destruct (range_order_spec w1 msg order _ Hconns Horder) as (Hnd & _ & Hin).
  unfold notifyClients. change (RoomID msg) with (UUID_String roomId). rewrite Hconns.
  rewrite decide_False.
  2: { intros Hz. apply map_size_empty_inv in Hz.
       apply (f_equal (λ m : gmap positive positive, m !! c)) in Hz.
       by rewrite lookup_insert_eq, lookup_empty in Hz. }
  rewrite range_subscribers_sent.
  rewrite (filter_key_NoDup order c ctx Hnd); [done|].
  apply Hin, lookup_insert_eq.
Qed.

Lemma subscriber_receives_created_message_witness :
  ∃ msg, published (trace (handleCreateRoomMessage deps_ok request_R)) = [msg] ∧
    sent_to 1%positive (notifyClients world_R1 msg [(1%positive, 11%positive)]).2
    = [(JObject [("kind", JString "message_created");
                 ("value", JObject [("id", JString "m1"); ("message", JString "hi")])],
        true)].
Proof.
  assert (step NewHandler (LSubscribe deps_ok request_R 11%positive)
          = Some (world_R1,
                  [QGetRoom (mkUUID "R"); UpgraderUpgrade true;
                   SubscribersInsert "R" 1%positive;
                   SlogInfo "new subscriber connected"])) as Hstep
    by (vm_compute; reflexivity).
  destruct (subscriber_receives_created_message NewHandler deps_ok request_R 11%positive
              1%positive world_R1 _ deps_ok request_R (mkUUID "R") "hi" (mkUUID "m1")
              "data" [(1%positive, 11%positive)]
              Hstep eq_refl eq_refl eq_refl eq_refl eq_refl eq_refl eq_refl eq_refl)
    as (msg & Hpub & Hsent).
  exists msg. split; [exact Hpub|].
  injection Hpub as <-. apply Hsent.
  unfold range_order. vm_compute. reflexivity.
Defined.

(** * Properties of the controllers *)

Ltac api_unfold :=
  unfold serve, handleCreateRoom, handleGetRooms, handleGetRoomMessages,
    handleGetRoomMessage, handleReactToMessage, handleMarkMessageAsAnswered,
    handleSubscribeToRoom_accept, handleCreateRoomMessage,
    handleRemoveReactionFromMessage, write_value_response, write_json_response,
    respond_lookup_error, LogErrorAndRespond, ParseUUIDParam,
    api_or_return, api_when_return, or_return, when_return in *.

Ltac api_case :=
  match goal with
  | |- context [match ?t with Ok _ => _ | Err _ => _ end] => destruct t eqn:?
  | |- context [match ?t with Some _ => _ | None => _ end] => destruct t eqn:?
  | |- context [if ?b then _ else _] => destruct b eqn:?
  end; cbn -[String.eqb Z.eqb].

(** X9: reactions, their removal, answered marks, room creation and the
    read endpoints never hand an event to [notifyClients]: among the
    controllers only the creation of a message publishes. *)
Theorem only_create_message_publishes k d x r :
  k ≠ CCreateRoomMessage → published (core_trace (serve k d x r)) = [].
Proof.
  intros Hk. destruct k; try done; api_unfold; cbn -[String.eqb Z.eqb];
    repeat api_case; reflexivity.
Qed.

Lemma only_create_message_publishes_witness :
  published (core_trace (serve CReactToMessage deps_ok api_ok request_R)) = [].
Proof. apply (only_create_message_publishes CReactToMessage). discriminate. Defined.

Lemma errors_final_spec tr i e :
  errors_final tr = true → tr !! i = Some e → is_HttpError e = true → S i = length tr.
Proof.
  revert i. induction tr as [|e0 tr IH]; intros i Hfin Hi He; [done|].
  cbn in Hfin. apply andb_true_iff in Hfin as [Hhead Htail].
  destruct i as [|i]; cbn in Hi.
  - injection Hi as ->. rewrite He in Hhead. by destruct tr.
  - cbn. f_equal. by apply IH.
Qed.

(** X10: every controller returns right after an [http.Error]: in its trace
    an error answer is the last event, so no store call, no body and no
    publication ever follows one. *)
Theorem error_answer_is_final k d x r i e :
  serve k d x r !! i = Some e → is_HttpError e = true →
  S i = length (serve k d x r).
Proof.
  apply errors_final_spec.
  destruct k; api_unfold; cbn -[String.eqb Z.eqb]; repeat api_case; reflexivity.
Qed.

Lemma error_answer_is_final_witness :
  2 = length (serve CRemoveReactionFromMessage
                (with_GetMessage (stored_message "S" 0) deps_ok) api_ok request_R).
Proof.
  exact (error_answer_is_final CRemoveReactionFromMessage
           (with_GetMessage (stored_message "S" 0) deps_ok) api_ok request_R 1
           (Core (HttpError "message not found" StatusNotFound)) eq_refl eq_refl).
Defined.

(** X11: a request whose [room_id] is not a UUID is answered 400 "invalid
    room id" by every controller whose route has one, and a request whose
    [message_id] is not a UUID is answered 400 "invalid message id" by
    every controller whose route has one; in both cases that answer is the
    whole trace: the store and the upgrader are not reached. *)
Theorem malformed_ids_are_rejected k d x r :
  has_room_id k = true →
  (∀ err, ParseUUIDParam d r "room_id" = Err err →
     serve k d x r = [Core (HttpError "invalid room id" StatusBadRequest)]) ∧
  (has_message_id k = true →
   ∀ roomID err,
     ParseUUIDParam d r "room_id" = Ok roomID →
     ParseUUIDParam d r "message_id" = Err err →
     serve k d x r = [Core (HttpError "invalid message id" StatusBadRequest)]).
Proof.
  intros Hk. split.
  - intros err Hroom. destruct k; try done; api_unfold; by rewrite Hroom.
  - intros Hm roomID err Hroom Hmsg.
    destruct k; try done; api_unfold; rewrite Hroom; cbn; by rewrite Hmsg.
Qed.

Lemma malformed_ids_are_rejected_witness :
  serve CSubscribeToRoom (with_Parse (λ _, Err (ErrOther "invalid UUID")) deps_ok)
    api_ok request_R
  = [Core (HttpError "invalid room id" StatusBadRequest)].
Proof.
  exact (proj1 (malformed_ids_are_rejected CSubscribeToRoom
                  (with_Parse (λ _, Err (ErrOther "invalid UUID")) deps_ok)
                  api_ok request_R eq_refl) (ErrOther "invalid UUID") eq_refl).
Defined.

(** X12: a message reached through the URL of a room it does not belong to
    is answered 404 "message not found" by each of the four controllers of
    a single message, right after the lookup: it is neither returned nor
    changed. *)
Theorem message_of_other_room_is_hidden k d x r roomID messageId message :
  has_message_id k = true →
  ParseUUIDParam d r "room_id" = Ok roomID →
  ParseUUIDParam d r "message_id" = Ok messageId →
  q_GetMessage d messageId = Ok message →
  UUID_String (pg_RoomID message) ≠ UUID_String roomID →
  serve k d x r
  = [Core (QGetMessage messageId); Core (HttpError "message not found" StatusNotFound)] ∧
  count_api is_mutation (serve k d x r) = 0 ∧ bodies (serve k d x r) = [].
Proof.
  intros Hk Hroom Hmsg Hget Hne.
  apply String.eqb_neq in Hne.
  assert (serve k d x r
          = [Core (QGetMessage messageId);
             Core (HttpError "message not found" StatusNotFound)]) as ->.
  { destruct k; try done; api_unfold; rewrite Hroom; cbn -[String.eqb];
      rewrite Hmsg; cbn -[String.eqb]; rewrite Hget; cbn -[String.eqb];
      by rewrite Hne. }
  done.
Qed.

Lemma message_of_other_room_is_hidden_witness :
  serve CGetRoomMessage (with_GetMessage (stored_message "S" 3) deps_ok) api_ok request_R
  = [Core (QGetMessage (mkUUID "R"));
     Core (HttpError "message not found" StatusNotFound)].
Proof.
  refine (proj1 (message_of_other_room_is_hidden CGetRoomMessage
                   (with_GetMessage (stored_message "S" 3) deps_ok) api_ok request_R
                   (mkUUID "R") (mkUUID "R") _ eq_refl eq_refl eq_refl eq_refl _)).
  cbn. discriminate.
Defined.

(** X13: when the lookup of the message fails, each of the four controllers
    of a single message answers 404 "message not found" if the store
    reports no row and 500 otherwise, and does nothing else. *)
Theorem message_lookup_failure k d x r roomID messageId err :
  has_message_id k = true →
  ParseUUIDParam d r "room_id" = Ok roomID →
  ParseUUIDParam d r "message_id" = Ok messageId →
  q_GetMessage d messageId = Err err →
  serve k d x r
  = [Core (QGetMessage messageId);
     Core (if errors_Is_ErrNoRows err
           then HttpError "message not found" StatusNotFound
           else HttpError "something went wrong" StatusInternalServerError)].
Proof.
  intros Hk Hroom Hmsg Hget.
  destruct k; try done; api_unfold; rewrite Hroom; cbn; rewrite Hmsg; cbn;
    rewrite Hget; cbn; by destruct (errors_Is_ErrNoRows err).
Qed.

Lemma message_lookup_failure_witness :
  serve CMarkMessageAsAnswered (with_GetMessage (λ _, Err ErrNoRows) deps_ok)
    api_ok request_R
  = [Core (QGetMessage (mkUUID "R"));
     Core (HttpError "message not found" StatusNotFound)].
Proof.
  exact (message_lookup_failure CMarkMessageAsAnswered
           (with_GetMessage (λ _, Err ErrNoRows) deps_ok) api_ok request_R
           (mkUUID "R") (mkUUID "R") ErrNoRows eq_refl eq_refl eq_refl eq_refl).
Defined.

(** ** internal/mappers and the listing of a room *)

Lemma foldl_append_elems (messages : list pg_Message) (acc : slice RoomMessage) :
  let res := foldl (λ roomMessages message, append roomMessages (to_RoomMessage message))
                   acc messages in
  slice_elems res = slice_elems acc ++ (to_RoomMessage <$> messages) ∧
  (res = None ↔ acc = None ∧ messages = []).
Proof.
  revert acc. induction messages as [|m messages IH]; intros acc; cbn [foldl]; cbn zeta.
  - rewrite app_nil_r. split; [done|]. split; [by intros -> | by intros [-> _]].
  - destruct (IH (append acc (to_RoomMessage m))) as [Helems Hnil].
    cbn zeta in Helems, Hnil. split.
    + rewrite Helems.
      change (slice_elems (append acc (to_RoomMessage m)))
        with (slice_elems acc ++ [to_RoomMessage m]).
      by rewrite fmap_cons, <- app_assoc.
    + split; [|by intros [_ ?]]. intros Hres. apply Hnil in Hres as [Hacc _].
      discriminate Hacc.
Qed.

Lemma MapMessageToRoomMessage_elems (messages : slice pg_Message) :
  slice_elems (MapMessageToRoomMessage messages) = to_RoomMessage <$> slice_elems messages ∧
  (MapMessageToRoomMessage messages = None ↔ slice_elems messages = []).
Proof.
  unfold MapMessageToRoomMessage.
  destruct (foldl_append_elems (slice_elems messages) None) as [Helems Hnil].
  cbn zeta in Helems, Hnil. split; [exact Helems|].
  rewrite Hnil. split; [by intros [_ ?] | by intros ?].
Qed.

(** X14: [MapMessageToRoomMessage] keeps the messages in order, one
    [RoomMessage] per stored message with the ids rendered as strings and
    the text, the reaction count and the answered flag copied; it returns
    the nil slice exactly when there is no message, be the input nil or
    empty, so the listing of a room without messages is rendered with
    ["messages": null]. *)
Theorem MapMessageToRoomMessage_spec (messages : slice pg_Message) roomId :
  slice_elems (MapMessageToRoomMessage messages) = to_RoomMessage <$> slice_elems messages ∧
  length (slice_elems (MapMessageToRoomMessage messages)) = length (slice_elems messages) ∧
  (MapMessageToRoomMessage messages = None ↔ slice_elems messages = []) ∧
  room_messages_response roomId messages
  = VObject [("room_id", VString (UUID_String roomId));
             ("messages",
              match slice_elems messages with
              | [] => VNull
              | l => VArray (marshal_RoomMessage ∘ to_RoomMessage <$> l)
              end)].
Proof.
  destruct (MapMessageToRoomMessage_elems messages) as [Helems Hnil].
  split; [exact Helems|]. split; [by rewrite Helems, length_fmap|].
  split; [exact Hnil|].
  unfold room_messages_response, vmarshal_fields.
  destruct (MapMessageToRoomMessage messages) as [l|] eqn:Hmap.
  - cbn in Helems. subst l.
    destruct (slice_elems messages) as [|m ms] eqn:Hms.
    + discriminate (proj2 Hnil eq_refl).
    + cbn. do 5 f_equal. by rewrite <- list_fmap_compose.
  - by rewrite (proj1 Hnil eq_refl).
Qed.

Example MapMessageToRoomMessage_empty_not_nil :
  MapMessageToRoomMessage (Some []) = None ∧
  room_messages_response (mkUUID "R") (Some [])
  = VObject [("room_id", VString "R"); ("messages", VNull)].
Proof. split; reflexivity. Qed.

(** X15: a successful listing of the messages of a room writes one body, the
    rendering of the room id and of the mapped messages, and sets no status
    line of its own; when the lookup fails it answers 404 "room not found"
    for a missing row and 500 otherwise, and writes no body. *)
Theorem get_room_messages_response d x r roomId :
  ParseUUIDParam d r "room_id" = Ok roomId →
  let tr := (handleGetRoomMessages d x r).1 in
  (∀ messages data,
     q_GetRoomMessages x roomId = Ok messages →
     json_Marshal_value x (room_messages_response roomId messages) = Ok data →
     bodies tr = [data] ∧ count_api is_mutation tr = 0 ∧
     (w_Write d data = Ok tt → status_codes (core_trace tr) = [])) ∧
  (∀ err, q_GetRoomMessages x roomId = Err err →
     tr = [QGetRoomMessages roomId;
           Core (if errors_Is_ErrNoRows err
                 then HttpError "room not found" StatusNotFound
                 else HttpError "something went wrong" StatusInternalServerError)]).
Proof.
  intros Hparse. cbn zeta. api_unfold. rewrite Hparse. cbn. split.
  - intros messages data Hget Hmarshal. rewrite Hget. cbn. rewrite Hmarshal. cbn.
    destruct (w_Write d data) as [[]|e]; cbn; repeat split; done.
  - intros err Hget. rewrite Hget. cbn. by destruct (errors_Is_ErrNoRows err).
Qed.

Lemma get_room_messages_response_witness :
  bodies (handleGetRoomMessages deps_ok api_ok request_R).1 = ["data"].
Proof.
  destruct (get_room_messages_response deps_ok api_ok request_R (mkUUID "R") eq_refl)
    as [Hok _].
  exact (proj1 (Hok None "data" eq_refl eq_refl)).
Defined.

(** ** The controllers that change the store *)

(** X16: marking a message as answered is idempotent at the endpoint: for a
    message of the room that is already answered the controller answers
    204 without calling the store; otherwise it calls
    [MarkMessageAsAnswered] once and answers 204, or 500 when that call
    fails; it never writes a body. *)
Theorem mark_answered_once d x r roomID messageId message :
  ParseUUIDParam d r "room_id" = Ok roomID →
  ParseUUIDParam d r "message_id" = Ok messageId →
  q_GetMessage d messageId = Ok message →
  UUID_String (pg_RoomID message) = UUID_String roomID →
  let tr := (handleMarkMessageAsAnswered d x r).1 in
  mutations tr
  = (if pg_Answered message then [] else [QMarkMessageAsAnswered messageId]) ∧
  status_codes (core_trace tr)
  = [if pg_Answered message then StatusNoContent
     else match q_MarkMessageAsAnswered x messageId with
          | None => StatusNoContent
          | Some _ => StatusInternalServerError
          end] ∧
  bodies tr = [].
Proof.
  intros Hroom Hmsg Hget Heq. apply String.eqb_eq in Heq.
  cbn zeta. api_unfold. rewrite Hroom. cbn -[String.eqb]. rewrite Hmsg. cbn -[String.eqb].
  rewrite Hget. cbn -[String.eqb]. rewrite Heq. cbn.
  destruct (pg_Answered message); cbn; [done|].
  by destruct (q_MarkMessageAsAnswered x messageId).
Qed.

Lemma mark_answered_once_witness :
  mutations (handleMarkMessageAsAnswered deps_ok api_ok request_R).1
  = [QMarkMessageAsAnswered (mkUUID "R")] ∧
  status_codes (core_trace (handleMarkMessageAsAnswered deps_ok api_ok request_R).1)
  = [StatusNoContent].
Proof.
  destruct (mark_answered_once deps_ok api_ok request_R (mkUUID "R") (mkUUID "R")
              {| pg_ID := mkUUID "R"; pg_RoomID := mkUUID "R"; pg_Message_text := "hi";
                 pg_ReactionCount := 0; pg_Answered := false |}
              eq_refl eq_refl eq_refl eq_refl) as (Hcount & Hstatus & _).
  split; [exact Hcount | exact Hstatus].
Defined.

(** X17: a reaction is added without any guard on the current count: for a
    message of the room the controller calls [ReactToMessage] exactly once,
    and when the call and the response succeed it answers 200 with the one
    body that renders the count the store returned. *)
Theorem react_calls_store_once d x r roomID messageId message :
  ParseUUIDParam d r "room_id" = Ok roomID →
  ParseUUIDParam d r "message_id" = Ok messageId →
  q_GetMessage d messageId = Ok message →
  UUID_String (pg_RoomID message) = UUID_String roomID →
  let tr := (handleReactToMessage d x r).1 in
  mutations tr = [QReactToMessage messageId] ∧
  (∀ count data,
     q_ReactToMessage x messageId = Ok count →
     json_Marshal d (marshal_fields [(TagName "count", JNumber count)]) = Ok data →
     w_Write d data = Ok tt →
     bodies tr = [data] ∧ status_codes (core_trace tr) = [StatusOK]) ∧
  (∀ err, q_ReactToMessage x messageId = Err err →
     bodies tr = [] ∧ status_codes (core_trace tr) = [StatusInternalServerError]).
Proof.
  intros Hroom Hmsg Hget Heq. apply String.eqb_eq in Heq.
  cbn zeta. api_unfold. rewrite Hroom. cbn -[String.eqb]. rewrite Hmsg. cbn -[String.eqb].
  rewrite Hget. cbn -[String.eqb]. rewrite Heq. cbn.
  destruct (q_ReactToMessage x messageId) as [count|err] eqn:Hreact; cbn.
  - destruct (json_Marshal d _) as [data|e1] eqn:Hmarshal; cbn.
    + destruct (w_Write d data) as [[]|e2] eqn:Hwrite; cbn;
        (split; [done|]; split; [|done]);
        intros count' data' [= <-] Hm; rewrite Hmarshal in Hm; injection Hm as <-;
        intros Hw; [done | by rewrite Hwrite in Hw].
    + split; [done|]. split; [|done].
      intros count' data' [= <-] Hm. by rewrite Hmarshal in Hm.
  - repeat split; done.
Qed.

Lemma react_calls_store_once_witness :
  mutations (handleReactToMessage deps_ok api_ok request_R).1
  = [QReactToMessage (mkUUID "R")].
Proof.
  exact (proj1 (react_calls_store_once deps_ok api_ok request_R (mkUUID "R") (mkUUID "R")
                  {| pg_ID := mkUUID "R"; pg_RoomID := mkUUID "R";
                     pg_Message_text := "hi"; pg_ReactionCount := 0;
                     pg_Answered := false |}
                  eq_refl eq_refl eq_refl eq_refl)).
Defined.

(** X18: no controller changes the store more than once per request, and
    the subscription and the three read endpoints do not change it at
    all. *)
Theorem mutations_at_most_once k d x r :
  length (mutations (serve k d x r)) ≤ 1 ∧
  (is_read_only k = true → mutations (serve k d x r) = []).
Proof.
  destruct k; api_unfold; cbn -[String.eqb Z.eqb]; repeat api_case;
    (split; [cbn; lia | done]).
Qed.

(** X19: the two creation controllers insert only what they have
    validated: a room is inserted only with the theme decoded from the
    body, and a message only into the room of the URL, after the store has
    confirmed that room, with the text decoded from the body; and 201 is
    answered only when the insert has succeeded. *)
Theorem inserts_are_validated d x r :
  (∀ theme, QInsertRoom theme ∈ (handleCreateRoom d x r).1 →
     json_Decode_theme x (Body r) = Ok theme) ∧
  (StatusCreated ∈ status_codes (core_trace (handleCreateRoom d x r).1) →
     ∃ theme roomId, json_Decode_theme x (Body r) = Ok theme ∧
                     q_InsertRoom x theme = Ok roomId) ∧
  (∀ roomId text, QInsertMessage roomId text ∈ (handleCreateRoomMessage d r).1 →
     ParseUUIDParam d r "room_id" = Ok roomId ∧ q_GetRoom d roomId = Ok tt ∧
     json_Decode_message d (Body r) = Ok text) ∧
  (StatusCreated ∈ status_codes (handleCreateRoomMessage d r).1 →
     ∃ roomId text messageID,
       ParseUUIDParam d r "room_id" = Ok roomId ∧
       json_Decode_message d (Body r) = Ok text ∧
       q_InsertMessage d roomId text = Ok messageID).
Proof.
  split; [|split; [|split]].
  - api_unfold. cbn. destruct (json_Decode_theme x (Body r)) as [theme|e0]; cbn.
    2: { intros theme Hin. set_solver. }
    destruct (q_InsertRoom x theme) as [roomId|e1]; cbn.
    2: { intros theme' Hin. set_solver. }
    destruct (json_Marshal d _) as [data|e2]; cbn.
    2: { intros theme' Hin. set_solver. }
    destruct (w_Write d data) as [[]|e3]; cbn; intros theme' Hin; set_solver.
  - api_unfold. cbn. destruct (json_Decode_theme x (Body r)) as [theme|e0]; cbn.
    2: { intros Hin. set_solver. }
    destruct (q_InsertRoom x theme) as [roomId|e1] eqn:Hins; cbn.
    2: { intros Hin. set_solver. }
    intros _. eauto.
  - api_unfold. destruct (uuid_Parse d (URLParam r "room_id")) as [roomId|e0]; cbn.
    2: { intros roomId text Hin. set_solver. }
    destruct (q_GetRoom d roomId) as [[]|e1] eqn:Hroom; cbn.
    2: { intros roomId' text Hin. destruct (errors_Is_ErrNoRows e1); set_solver. }
    destruct (json_Decode_message d (Body r)) as [text|e2]; cbn.
    2: { intros roomId' text Hin. set_solver. }
    destruct (q_InsertMessage d roomId text) as [messageID|e3]; cbn.
    2: { intros roomId' text' Hin. set_solver. }
    destruct (json_Marshal d _) as [data|e4]; cbn.
    2: { intros roomId' text' Hin. set_solver. }
    destruct (w_Write d data) as [[]|e5]; cbn; intros roomId' text' Hin; set_solver.
  - api_unfold. destruct (uuid_Parse d (URLParam r "room_id")) as [roomId|e0]; cbn.
    2: { intros Hin. set_solver. }
    destruct (q_GetRoom d roomId) as [[]|e1] eqn:Hroom; cbn.
    2: { intros Hin. destruct (errors_Is_ErrNoRows e1); set_solver. }
    destruct (json_Decode_message d (Body r)) as [text|e2]; cbn.
    2: { intros Hin. set_solver. }
    destruct (q_InsertMessage d roomId text) as [messageID|e3] eqn:Hins; cbn.
    2: { intros Hin. set_solver. }
    intros _. eauto 6.
Qed.

(** X20: the listing of the rooms asks the store once; on success it writes
    one body, the rendering of the rooms (of [null] when the store returns
    a nil slice), and changes nothing; when the store fails it answers 404
    "room not found" for a missing row and 500 otherwise. *)
Theorem get_rooms_response d x r :
  let tr := (handleGetRooms d x r).1 in
  (∀ rooms data,
     q_GetRooms x = Ok rooms →
     json_Marshal_value x
       (VObject [("rooms", match rooms with
                           | None => VNull
                           | Some l => VArray (marshal_pg_Room x <$> l)
                           end)]) = Ok data →
     bodies tr = [data] ∧ mutations tr = [] ∧ http_errors (core_trace tr)
       = match w_Write d data with
         | Ok _ => []
         | Err _ => [("something went wrong", StatusInternalServerError)]
         end) ∧
  (∀ err, q_GetRooms x = Err err →
     tr = [QGetRooms;
           Core (if errors_Is_ErrNoRows err
                 then HttpError "room not found" StatusNotFound
                 else HttpError "something went wrong" StatusInternalServerError)]).
Proof.
  cbn zeta. api_unfold. cbn. split.
  - intros rooms data Hget Hmarshal. rewrite Hget. cbn.
    assert (vmarshal_fields [(TagName "rooms", marshal_slice (marshal_pg_Room x) rooms)]
            = VObject [("rooms", match rooms with
                                 | None => VNull
                                 | Some l => VArray (marshal_pg_Room x <$> l)
                                 end)]) as -> by (by destruct rooms).
    rewrite Hmarshal. cbn. by destruct (w_Write d data) as [[]|e].
  - intros err Hget. rewrite Hget. cbn. by destruct (errors_Is_ErrNoRows err).
Qed.

(** X21: a message looked up through the URL of its own room is returned:
    the controller writes one body, the rendering of that message under the
    key "message", and changes nothing. *)
Theorem get_room_message_response d x r roomID messageId message data :
  ParseUUIDParam d r "room_id" = Ok roomID →
  ParseUUIDParam d r "message_id" = Ok messageId →
  q_GetMessage d messageId = Ok message →
  UUID_String (pg_RoomID message) = UUID_String roomID →
  json_Marshal_value x (VObject [("message", marshal_pg_Message x message)]) = Ok data →
  let tr := (handleGetRoomMessage d x r).1 in
  bodies tr = [data] ∧ mutations tr = [] ∧
  (w_Write d data = Ok tt → status_codes (core_trace tr) = []).
Proof.
  intros Hroom Hmsg Hget Heq Hmarshal. apply String.eqb_eq in Heq.
  cbn zeta. api_unfold. rewrite Hroom. cbn -[String.eqb]. rewrite Hmsg. cbn -[String.eqb].
  rewrite Hget. cbn -[String.eqb]. rewrite Heq. cbn. unfold vmarshal_fields. cbn.
  rewrite Hmarshal. cbn. by destruct (w_Write d data) as [[]|e].
Qed.

Lemma get_room_message_response_witness :
  bodies (handleGetRoomMessage deps_ok api_ok request_R).1 = ["data"].
Proof.
  exact (proj1 (get_room_message_response deps_ok api_ok request_R (mkUUID "R")
                  (mkUUID "R")
                  {| pg_ID := mkUUID "R"; pg_RoomID := mkUUID "R";
                     pg_Message_text := "hi"; pg_ReactionCount := 0;
                     pg_Answered := false |}
                  "data" eq_refl eq_refl eq_refl eq_refl eq_refl)).
Defined.

(** ** A session is unsubscribed only when its context is done *)

Lemma step_closes_done w l w' tr c s s' :
  step w l = Some (w', tr) →
  sessions w !! c = Some s → s_closed s = false →
  sessions w' !! c = Some s' → s_closed s' = true →
  ctx_done w s.
Proof.
  intros Hstep Hs Hopen Hs' Hclosed. apply step_cases in Hstep.
  destruct l as [d r ctx|c'|c'|msg order|c'].
  - destruct Hstep as [Hres Hfresh].
    pose proof (register_inv d r ctx w) as (_ & _ & Hw).
    cbn zeta in Hw. rewrite Hres in Hw. cbn [fst snd] in Hw.
    destruct (handleSubscribeToRoom_register d r ctx w).2 as [c'|].
    + destruct Hw as (roomId & _ & _ & _ & Hsess). cbn in Hfresh.
      apply bool_decide_eq_true in Hfresh.
      rewrite Hsess, lookup_insert_ne in Hs' by congruence. congruence.
    + subst w'. congruence.
  - destruct Hstep as (s0 & _ & -> & _). cbn in Hs'. congruence.
  - destruct Hstep as (_ & Hsess & _). rewrite Hsess in Hs'. congruence.
  - destruct Hstep as [_ Hres].
    pose proof (notifyClients_world w msg order) as (_ & Hsess & _).
    cbn zeta in Hsess. rewrite Hres in Hsess. cbn [fst] in Hsess.
    rewrite Hsess in Hs'. congruence.
  - destruct Hstep as (s0 & Hs0 & _ & Hdone & [= <- _]). cbn in Hs'.
    destruct (decide (c' = c)) as [->|Hne].
    + congruence.
    + rewrite lookup_insert_ne in Hs' by done. congruence.
Qed.

Lemma run_closes_done w ls w' tr c s s' :
  run w ls = Some (w', tr) →
  sessions w !! c = Some s → s_closed s = false →
  sessions w' !! c = Some s' → s_closed s' = true →
  ctx_done w' s.
Proof.
  revert w tr s. induction ls as [|l ls IH]; intros w tr s Hrun Hs Hopen Hs' Hclosed.
  - injection Hrun as <- <-. congruence.
  - apply run_cons in Hrun as (w1 & tr1 & tr2 & Hstep & Hrun & ->).
    destruct (step_session _ _ _ _ _ _ Hstep Hs) as (s1 & Hs1 & (Hr1 & Hq1 & Hc1) & _).
    pose proof (run_cancelled _ _ _ _ Hrun) as Hmono.
    destruct (s_closed s1) eqn:Hclosed1.
    + pose proof (step_closes_done _ _ _ _ _ _ _ Hstep Hs Hopen Hs1 Hclosed1) as Hdone.
      pose proof (step_cancelled _ _ _ _ Hstep) as Hmono1.
      destruct Hdone as [Hd|Hd]; [left | right]; by apply Hmono, Hmono1.
    + specialize (IH _ _ _ Hrun Hs1 Hclosed1 Hs' Hclosed).
      unfold ctx_done in *. by rewrite Hq1, Hc1 in IH.
Qed.

(** X22: there is no spurious unsubscribe: along any run from a reachable
    state, a registered session whose context is not done at the end, no
    cancel function of it having been invoked and its request context not
    having been cancelled, has not returned; its entry has not been
    deleted and it is still a member of its room. *)
Theorem no_spurious_unsubscribe ls0 w c s ls w1 tr1 :
  fst <$> run NewHandler ls0 = Some w →
  sessions w !! c = Some s →
  s_closed s = false →
  run w ls = Some (w1, tr1) →
  ¬ ctx_done w1 s →
  (∃ s1, sessions w1 !! c = Some s1 ∧ s_closed s1 = false) ∧
  unsubscribes (UUID_String (s_room s)) c tr1 = 0 ∧
  (UUID_String (s_room s), c) ∈ members (subscribers w1).
Proof.
  intros Hreach Hs Hopen Hrun Hnot.
  destruct (run NewHandler ls0) as [[w0 tr0]|] eqn:Hrun0; [|done].
  injection Hreach as ->.
  assert (fst <$> run NewHandler (ls0 ++ ls) = Some w1) as Hreach1.
  { clear -Hrun0 Hrun. revert Hrun0. generalize NewHandler as w0. revert tr0.
    induction ls0 as [|l ls0 IH]; intros tr0 w0 Hrun0.
    - injection Hrun0 as -> <-. cbn [app]. by rewrite Hrun.
    - apply run_cons in Hrun0 as (w' & tr' & tr'' & Hstep & Hrun0 & ->).
      specialize (IH _ _ Hrun0). cbn [app run]. rewrite Hstep. cbn [fst snd].
      destruct (run w' (ls0 ++ ls)) as [[w2 tr2]|]; [|done]. exact IH. }
  destruct (reachable_invariants _ _ Hreach1) as [_ Hreg].
  destruct (run_session _ _ _ _ _ _ Hrun Hs) as (s1 & Hs1 & (Hr1 & Hq1 & Hc1) & Hcount).
  assert (s_closed s1 = false) as Hopen1.
  { destruct (s_closed s1) eqn:Hclosed1; [|done].
    exfalso. apply Hnot. by eapply run_closes_done. }
  rewrite Hopen, Hopen1 in Hcount. split; [eauto|]. split; [lia|].
  apply elem_of_members. destruct (Hreg _ _ Hs1 Hopen1) as (conns & Hroom & Hc).
  rewrite Hr1 in Hroom. eauto.
Qed.

Lemma no_spurious_unsubscribe_witness :
  unsubscribes "R" 2%positive trace_drop_1 = 0 ∧
  ("R", 2%positive) ∈ members (subscribers world_R12_dropped).
Proof.
  assert (run world_R12 schedule_drop_1 = Some (world_R12_dropped, trace_drop_1)) as Hrun
    by (vm_compute; reflexivity).
  refine (proj2 (no_spurious_unsubscribe schedule_R12 world_R12 2%positive
                   {| s_room := mkUUID "R"; s_request_ctx := 20%positive;
                      s_ctx := 12%positive; s_closed := false |}
                   schedule_drop_1 world_R12_dropped trace_drop_1
                   world_R12_reached _ eq_refl Hrun _)).
  - by vm_compute.
  - unfold ctx_done. cbn. set_solver.
Defined.
